(** * phonecall-popup: the call registry of [gtk_popup.py]

    A shallow embedding of [CallWindow] and [PopupApp] (src/gtk_popup.py)
    and the properties of the call registry [self.calls].

    Modelling choices.
    - [self.calls] is a Python dict keyed by the D-Bus object path: a
      [gmap string Call].  The per-call dict is the record [Call]; its
      ["state"] stays a string, as in the source.
    - GTK objects live in a heap [windows] (reference -> widget state); the
      call entry holds the reference.  A window remembers the [call_path]
      its closures captured.
    - GLib timeout sources live in [sources] (source id -> the [call_path]
      captured by the callback).  GLib documents source ids as greater
      than 0, hence [positive]: a stored id is always truthy in Python.
    - [time.monotonic()] is an oracle [clock] indexed by the number of
      reads so far.  Readings are IEEE binary64 numbers ([spec_float] with
      precision 53 and maximal exponent 1024), and the subtraction in
      [_update_timer] is the rounded one, [SFsub].
    - every call to GTK, GLib, D-Bus and [print] is appended to [trace],
      oldest first. *)

From Equations Require Import Equations.
From stdpp Require Import gmap strings list fin_maps.
From Stdlib Require Import Ascii QArith Qround Qpower ZArith Zpower.
From Stdlib Require Import DecimalString DecimalPos DecimalZ SpecFloat.

Local Close Scope Q_scope.
Local Open Scope string_scope.

(** ** Python helpers *)

(** A Python [float]: an IEEE binary64 number. *)
Definition py_float : Type := spec_float.

(** [a - b] on floats: the exact difference rounded to nearest, ties to
    even. *)
Definition py_float_sub (a b : py_float) : py_float := SFsub 53 1024 a b.

(** [float(z)] and [a / b], used to write readings down. *)
Definition py_float_of_Z (z : Z) : py_float := binary_normalize 53 1024 z 0 false.

Definition py_float_div (a b : py_float) : py_float := SFdiv 53 1024 a b.

(** [int(x)] on a float: truncation toward zero.  On an infinity or a NaN
    Python raises ([OverflowError], [ValueError]); [time.monotonic()]
    returns finite numbers only and the difference of two of its readings
    is finite, so that exit is not modelled and the value there is
    arbitrary.  The statements about the displayed time carry the
    finiteness of the difference as a hypothesis. *)
Definition py_int (x : py_float) : Z :=
  match x with
  | S754_finite s m e =>
      cond_Zopp s
        match e with
        | Z.neg k => (Z.pos m / 2 ^ Z.pos k)%Z
        | _ => (Z.pos m * 2 ^ e)%Z
        end
  | _ => 0%Z
  end.

(** [str(n)] for an integer. *)
Definition py_str (z : Z) : string := NilZero.string_of_int (Z.to_int z).

(** [f"{z:02d}"]: decimal, sign-aware zero padding to a minimum width of
    2.  A negative number already has two characters, so only a one-digit
    non-negative number is padded. *)
Definition py_format_02d (z : Z) : string :=
  let s := py_str z in
  if (String.length s <? 2)%nat then "0" +:+ s else s.

(** Truthiness of an optional string: [None] and [""] are falsy. *)
Definition truthy_str (o : option string) : bool :=
  match o with
  | None => false
  | Some s => negb (String.eqb s "")
  end.

(** [s or d] for strings. *)
Definition str_or (s d : string) : string :=
  if String.eqb s "" then d else s.

(** ** Data model *)

(** Widget state of a [CallWindow]. *)
Record CallWindow := mkCallWindow {
  cw_call_path : string;      (* call_path captured by the connected closures *)
  state_label : string;
  caller_label : string;
  timer_label : string;
  answer_sensitive : bool;
  hangup_sensitive : bool;
  destroyed : bool;
}.

(** The data dict stored in [self.calls[call_path]]. *)
Record Call := mkCall {
  caller_id : string;
  state : string;
  window : nat;
  start_time : option py_float;
  timer_id : option positive;
}.

(** Calls made to the collaborators, in program order. *)
Inductive effect :=
| EPrint (line : string)                         (* print(...) *)
| ETraceback (exc : string)                      (* traceback.print_exc() *)
| EWindowNew (wid : nat) (caller_text : string)  (* CallWindow(...) *)
| EShowAll (wid : nat)                           (* window.show_all() *)
| EPresent (wid : nat)                           (* window.present() *)
| EDestroy (wid : nat)                           (* window.destroy() *)
| ETimeoutAdd (sid : positive) (call_path : string)
                                                 (* GLib.timeout_add_seconds(1, ...) *)
| ESourceRemove (sid : positive)                 (* GLib.source_remove(id) *)
| EDBusCall (call_path method : string).         (* Call1.Answer() / Call1.Hangup() *)

Record world := mkWorld {
  calls : gmap string Call;          (* self.calls *)
  windows : gmap nat CallWindow;     (* the GTK windows created so far *)
  next_window : nat;
  sources : gmap positive string;    (* live GLib timeout sources *)
  next_source : positive;
  clock : nat -> py_float;           (* time.monotonic(), by read number *)
  clock_reads : nat;
  trace : list effect;
}.

Definition set_calls (f : gmap string Call -> gmap string Call) (w : world) : world :=
  mkWorld (f (calls w)) (windows w) (next_window w) (sources w) (next_source w)
          (clock w) (clock_reads w) (trace w).

Definition set_windows (f : gmap nat CallWindow -> gmap nat CallWindow) (w : world) : world :=
  mkWorld (calls w) (f (windows w)) (next_window w) (sources w) (next_source w)
          (clock w) (clock_reads w) (trace w).

Definition set_sources (f : gmap positive string -> gmap positive string) (w : world) : world :=
  mkWorld (calls w) (windows w) (next_window w) (f (sources w)) (next_source w)
          (clock w) (clock_reads w) (trace w).

Definition emit (e : effect) (w : world) : world :=
  mkWorld (calls w) (windows w) (next_window w) (sources w) (next_source w)
          (clock w) (clock_reads w) (trace w ++ [e]).

(** [time.monotonic()]. *)
Definition time_monotonic (w : world) : py_float * world :=
  (clock w (clock_reads w),
   mkWorld (calls w) (windows w) (next_window w) (sources w) (next_source w)
           (clock w) (S (clock_reads w)) (trace w)).

(** [log(msg)]. *)
Definition log (msg : string) (w : world) : world :=
  emit (EPrint ("[popup] " +:+ msg)) w.

(** ** GLib *)

(** [GLib.timeout_add_seconds(1, lambda: self._update_timer(call_path))]:
    attaches a new source under a fresh id and returns the id. *)
Definition timeout_add_seconds (call_path : string) (w : world) : positive * world :=
  let sid := next_source w in
  (sid,
   emit (ETimeoutAdd sid call_path)
     (mkWorld (calls w) (windows w) (next_window w)
              (<[sid := call_path]> (sources w)) (Pos.succ sid)
              (clock w) (clock_reads w) (trace w))).

(** [GLib.source_remove(sid)]. *)
Definition source_remove (sid : positive) (w : world) : world :=
  emit (ESourceRemove sid) (set_sources (delete sid) w).

(** ** CallWindow *)

(** [CallWindow.__init__]: the widget state after construction. *)
Definition CallWindow_init (call_path caller_id : string) : CallWindow :=
  let caller_text := str_or caller_id "Unknown" in
  {| cw_call_path := call_path;
     state_label := "Incoming call";
     caller_label := "From: " +:+ caller_text;
     timer_label := "00:00";
     answer_sensitive := true;
     hangup_sensitive := true;
     destroyed := false |}.

(** [CallWindow.show_incoming].  The timer text is the literal of the
    source as it stands in the file: "Ringing" followed by the characters
    U+00E2, U+20AC and U+00A6 (an ellipsis decoded in the wrong charset),
    in UTF-8 as the source file is. *)
Definition cw_show_incoming (cw : CallWindow) : CallWindow :=
  {| cw_call_path := cw_call_path cw;
     state_label := "Incoming call";
     caller_label := caller_label cw;
     timer_label := "Ringingâ€¦";
     answer_sensitive := true;
     hangup_sensitive := true;
     destroyed := destroyed cw |}.

Definition cw_show_active (cw : CallWindow) : CallWindow :=
  {| cw_call_path := cw_call_path cw;
     state_label := "Call in progress";
     caller_label := caller_label cw;
     timer_label := timer_label cw;
     answer_sensitive := false;
     hangup_sensitive := true;
     destroyed := destroyed cw |}.

Definition cw_set_timer_label (text : string) (cw : CallWindow) : CallWindow :=
  {| cw_call_path := cw_call_path cw;
     state_label := state_label cw;
     caller_label := caller_label cw;
     timer_label := text;
     answer_sensitive := answer_sensitive cw;
     hangup_sensitive := hangup_sensitive cw;
     destroyed := destroyed cw |}.

Definition cw_set_destroyed (cw : CallWindow) : CallWindow :=
  {| cw_call_path := cw_call_path cw;
     state_label := state_label cw;
     caller_label := caller_label cw;
     timer_label := timer_label cw;
     answer_sensitive := answer_sensitive cw;
     hangup_sensitive := hangup_sensitive cw;
     destroyed := true |}.

(** [window.present()]. *)
Definition present (wid : nat) (w : world) : world := emit (EPresent wid) w.

(** [CallWindow.show_incoming]. *)
Definition show_incoming (wid : nat) (w : world) : world :=
  present wid (set_windows (alter cw_show_incoming wid) w).

(** [CallWindow.show_active]. *)
Definition show_active (wid : nat) (w : world) : world :=
  present wid (set_windows (alter cw_show_active wid) w).

(** The text [update_timer_label] writes for [seconds]. *)
Definition timer_text (seconds : Z) : string :=
  let m := Z.max seconds 0 in
  let mins := (m / 60)%Z in
  let secs := (m mod 60)%Z in
  py_format_02d mins +:+ ":" +:+ py_format_02d secs.

(** [CallWindow.update_timer_label]. *)
Definition update_timer_label (wid : nat) (seconds : Z) (w : world) : world :=
  set_windows (alter (cw_set_timer_label (timer_text seconds)) wid) w.


(** ** PopupApp *)

Definition Call1 : string := "org.pipewire.Telephony.Call1".

(** [PopupApp._update_timer]: the timeout callback.  The returned boolean
    tells GLib whether to keep the source. *)
Definition _update_timer (call_path : string) (w : world) : world * bool :=
  match calls w !! call_path with
  | None => (w, false)
  | Some call =>
      if negb (String.eqb (state call) "active") then (w, false)
      else match start_time call with
           | None => (w, false)
           | Some st =>
               let '(now, w1) := time_monotonic w in
               let elapsed := py_int (py_float_sub now st) in
               (update_timer_label (window call) elapsed w1, true)
           end
  end.

(** [if call["timer_id"]: GLib.source_remove(call["timer_id"])]. *)
Definition remove_timer (call : Call) (w : world) : world :=
  match timer_id call with
  | Some sid => source_remove sid w
  | None => w
  end.

(** [PopupApp._mark_active]. *)
Definition _mark_active (call_path : string) (w : world) : world :=
  match calls w !! call_path with
  | None => w
  | Some call =>
      let '(now, w1) := time_monotonic w in
      let w2 := show_active (window call) w1 in
      let w3 := remove_timer call w2 in
      let '(sid, w4) := timeout_add_seconds call_path w3 in
      let call' := {| caller_id := caller_id call;
                      state := "active";
                      window := window call;
                      start_time := Some now;
                      timer_id := Some sid |} in
      fst (_update_timer call_path (set_calls (<[call_path := call']>) w4))
  end.

(** [window.destroy()] up to the point where GTK emits ["destroy"]:
    [None] when there is nothing to destroy, otherwise the [call_path] the
    connected handler closes and the world in which it runs. *)
Definition gtk_destroy (wid : nat) (w : world) : world * option string :=
  let w1 := emit (EDestroy wid) w in
  match windows w1 !! wid with
  | Some cw =>
      if destroyed cw then (w1, None)
      else (set_windows (<[wid := cw_set_destroyed cw]>) w1, Some (cw_call_path cw))
  | None => (w1, None)
  end.

(** Case analysis that keeps the equation, for [Equations] clauses. *)
Definition inspect {A : Type} (x : A) : { y : A | x = y } := exist _ x eq_refl.

(** [PopupApp._close_call].  [window.destroy()] emits ["destroy"], whose
    handler (connected in [_show_window]) calls [_close_call] again while
    the outer call is still running.  The entry has been popped by then, so
    the registry shrinks at every nested call. *)
Equations? _close_call (call_path : string) (w : world) : world
  by wf (size (calls w)) lt :=
_close_call call_path w with inspect (calls w !! call_path) := {
  | exist _ None _ => w
  | exist _ (Some call) Hpop
      with inspect (gtk_destroy (window call)
                      (remove_timer call (set_calls (delete call_path) w))) := {
      | exist _ (w', Some p) Hdestroy =>
          log ("Closed call UI for " +:+ call_path) (_close_call p w')
      | exist _ (w', None) _ =>
          log ("Closed call UI for " +:+ call_path) w' } }.
Proof.
  assert (Hc : calls w' = delete call_path (calls w)).
  { change w' with (w', Some p).1. rewrite <- Hdestroy.
    unfold gtk_destroy, remove_timer; cbn.
    destruct (timer_id call); cbn;
      (destruct (windows w !! window call) as [cw|];
       [destruct (destroyed cw)|]; reflexivity). }
  rewrite Hc, map_size_delete, Hpop.
  assert (size (calls w) <> 0%nat).
  { intros Hz. apply map_size_empty_inv in Hz. rewrite Hz, lookup_empty in Hpop. done. }
  lia.
Defined.

(** [PopupApp._show_window].  The closures passed to [CallWindow] and
    connected to ["destroy"] capture [call_path]. *)
Definition _show_window (call_path caller_id initial_state : string) (w : world) : world :=
  match calls w !! call_path with
  | Some call => present (window call) w
  | None =>
      let wid := next_window w in
      let w1 := emit (EWindowNew wid (str_or caller_id "Unknown"))
                  (mkWorld (calls w)
                           (<[wid := CallWindow_init call_path caller_id]> (windows w))
                           (S wid) (sources w) (next_source w)
                           (clock w) (clock_reads w) (trace w)) in
      let w2 := emit (EShowAll wid) w1 in
      let w3 := set_calls (<[call_path :=
                   {| caller_id := str_or caller_id "Unknown";
                      state := initial_state;
                      window := wid;
                      start_time := None;
                      timer_id := None |}]>) w2 in
      if String.eqb initial_state "active" then _mark_active call_path w3
      else show_incoming wid w3
  end.

(** [PopupApp.on_interfaces_added]: the ObjectManager signal for a new
    object; [interfaces] maps interface names to their properties. *)
Definition on_interfaces_added (path : string)
    (interfaces : gmap string (gmap string string)) (w : world) : world :=
  match interfaces !! Call1 with
  | None => w
  | Some call_props =>
      if bool_decide (call_props = ∅) then w
      else
        let state := default "" (call_props !! "State") in
        let caller_id := default "Unknown" (call_props !! "LineIdentification") in
        let w1 := log ("Incoming call: " +:+ caller_id +:+ " (state=" +:+ state
                         +:+ ") path=" +:+ path) w in
        if String.eqb state "incoming"
        then _show_window path caller_id "incoming" w1
        else w1
  end.

(** [PopupApp.on_interfaces_removed]. *)
Definition on_interfaces_removed (path : string) (interfaces : list string)
    (w : world) : world :=
  if bool_decide (Call1 ∈ interfaces)
  then _close_call path (log ("Call removed: " +:+ path) w)
  else w.

(** [PopupApp.on_properties_changed]; [path] is the keyword argument
    requested with [path_keyword="path"]. *)
Definition on_properties_changed (interface : string)
    (changed_props : gmap string string) (_invalidated : list string)
    (path : option string) (w : world) : world :=
  if negb (String.eqb interface Call1) then w
  else
    let state := changed_props !! "State" in
    if negb (truthy_str state) then w
    else if negb (truthy_str path) then w
    else
      let state := default "" state in
      let call_path := default "" path in
      let w1 := log ("State changed: " +:+ call_path +:+ " -> " +:+ state) w in
      if String.eqb state "active" then _mark_active call_path w1
      else if String.eqb state "disconnected" then _close_call call_path w1
      else w1.

(** *** Call control *)

(** What the remote method call does: it returns, or it raises an
    [Exception] whose text is [exc]. *)
Inductive remote_outcome :=
| Succeeds
| Fails (exc : string).

(** How a Python function ends. *)
Inductive completion :=
| Returns
| Raises (exc : string).

(** [self._get_call_iface(call_path).<method>()]: one blocking round trip. *)
Definition dbus_call (call_path method : string) (o : remote_outcome)
    (w : world) : world * completion :=
  (emit (EDBusCall call_path method) w,
   match o with Succeeds => Returns | Fails exc => Raises exc end).

(** [PopupApp.answer_call]. *)
Definition answer_call (call_path : string) (o : remote_outcome)
    (w : world) : world * completion :=
  let w1 := log ("Answering " +:+ call_path) w in
  match dbus_call call_path "Answer" o w1 with
  | (w2, Returns) => (w2, Returns)
  | (w2, Raises exc) =>
      (emit (ETraceback exc) (log ("Answer failed: " +:+ exc) w2), Returns)
  end.

(** [PopupApp.hangup_call]. *)
Definition hangup_call (call_path : string) (o : remote_outcome)
    (w : world) : world * completion :=
  let w1 := log ("Hanging up " +:+ call_path) w in
  match dbus_call call_path "Hangup" o w1 with
  | (w2, Returns) => (w2, Returns)
  | (w2, Raises exc) =>
      (emit (ETraceback exc) (log ("Hangup failed: " +:+ exc) w2), Returns)
  end.

(** ** The event loop *)

(** What the GLib/GTK main loop can dispatch to the application. *)
Inductive event :=
| InterfacesAdded (path : string) (interfaces : gmap string (gmap string string))
| InterfacesRemoved (path : string) (interfaces : list string)
| PropertiesChanged (interface : string) (changed_props : gmap string string)
                    (invalidated : list string) (path : option string)
| Timeout (sid : positive)
| AnswerClicked (wid : nat) (o : remote_outcome)
| HangupClicked (wid : nat) (o : remote_outcome)
| DeleteEvent (wid : nat).

(** GLib runs the callback of a live timeout source and drops the source
    when the callback returns [False]. *)
Definition glib_dispatch (sid : positive) (w : world) : world :=
  match sources w !! sid with
  | None => w
  | Some call_path =>
      let '(w1, continue) := _update_timer call_path w in
      if continue then w1 else set_sources (delete sid) w1
  end.

(** A click reaches the handler when the window is alive and the button is
    sensitive; the handler is the closure over [call_path]. *)
Definition clicked (sensitive : CallWindow -> bool)
    (handler : string -> world -> world * completion)
    (wid : nat) (w : world) : world :=
  match windows w !! wid with
  | Some cw =>
      if destroyed cw || negb (sensitive cw) then w
      else (handler (cw_call_path cw) w).1
  | None => w
  end.

Definition step (e : event) (w : world) : world :=
  match e with
  | InterfacesAdded path interfaces => on_interfaces_added path interfaces w
  | InterfacesRemoved path interfaces => on_interfaces_removed path interfaces w
  | PropertiesChanged interface changed_props invalidated path =>
      on_properties_changed interface changed_props invalidated path w
  | Timeout sid => glib_dispatch sid w
  | AnswerClicked wid o => clicked answer_sensitive (fun p => answer_call p o) wid w
  | HangupClicked wid o => clicked hangup_sensitive (fun p => hangup_call p o) wid w
  | DeleteEvent wid => w          (* the handler returns True: the window stays *)
  end.

Definition run (es : list event) (w : world) : world :=
  foldl (fun w e => step e w) w es.

(** [PopupApp.__init__] with a successful subscription, then [main] up to
    [Gtk.main()]. *)
Definition PopupApp_init (clock : nat -> py_float) : world :=
  log "Subscribing to PipeWire telephony signals"
    (mkWorld ∅ ∅ 0 ∅ 1%positive clock 0 []).

Definition main (clock : nat -> py_float) : world :=
  log "Ready for calls (GTK popup)" (PopupApp_init clock).

Definition reachable (w : world) : Prop :=
  exists clock es, w = run es (main clock).

(** ** The registry invariant *)

(** The spec's invariant on [self.calls]: listed as entries, no identifier
    occurs twice, and an entry has a timer exactly when it is active. *)
Definition registry_inv (w : world) : Prop :=
  NoDup (map_to_list (calls w)).*1 /\
  forall p c, calls w !! p = Some c ->
    (timer_id c <> None <-> state c = "active").

(** The state of [p]'s entry, [None] when [p] is not tracked. *)
Definition tracked_state (p : string) (w : world) : option string :=
  state <$> calls w !! p.

(** The effects appended to the trace between [w] and [w']. *)
Definition new_effects (w w' : world) : list effect :=
  drop (length (trace w)) (trace w').

(** What holds of every world the event loop can reach. *)
Record wf (w : world) : Prop := mkWf {
  wf_timer : forall p c, calls w !! p = Some c ->
    (timer_id c <> None <-> state c = "active");
  wf_state : forall p c, calls w !! p = Some c ->
    state c = "incoming" \/ state c = "active";
  wf_start : forall p c, calls w !! p = Some c ->
    (start_time c <> None <-> state c = "active");
  wf_caller : forall p c, calls w !! p = Some c -> caller_id c <> "";
  wf_window : forall p c, calls w !! p = Some c ->
    exists cw, windows w !! window c = Some cw /\ cw_call_path cw = p /\
               destroyed cw = false /\
               caller_label cw = "From: " +:+ caller_id c;
  wf_window_fresh : forall wid, is_Some (windows w !! wid) -> wid < next_window w;
  wf_sources : forall sid p, sources w !! sid = Some p <->
    exists c, calls w !! p = Some c /\ timer_id c = Some sid;
  wf_source_fresh : forall sid, is_Some (sources w !! sid) ->
    (sid < next_source w)%positive;
}.

(** The entry [_mark_active] stores for a call read as [c] at clock
    reading [now], with the new source [sid]. *)
Definition activated (c : Call) (now : py_float) (sid : positive) : Call :=
  {| caller_id := caller_id c; state := "active"; window := window c;
     start_time := Some now; timer_id := Some sid |}.

(** The entry [_show_window] stores for a new incoming call whose window
    is [wid]. *)
Definition incoming_entry (caller_id : string) (wid : nat) : Call :=
  {| caller_id := str_or caller_id "Unknown"; state := "incoming"; window := wid;
     start_time := None; timer_id := None |}.

(** The per-call state machine of the spec: the moves allowed between the
    state of an identifier before and after one event. *)
Inductive transition : option string -> option string -> Prop :=
| t_untracked : transition None None
| t_appear : transition None (Some "incoming")
| t_ring : transition (Some "incoming") (Some "incoming")
| t_answer : transition (Some "incoming") (Some "active")
| t_early_end : transition (Some "incoming") None
| t_talk : transition (Some "active") (Some "active")
| t_end : transition (Some "active") None.

(** [e] is the removal of [p], or a state change of [p] to
    ["disconnected"]. *)
Definition ends_call (e : event) (p : string) : Prop :=
  (exists ifs, e = InterfacesRemoved p ifs /\ Call1 ∈ ifs) \/
  (exists ch inv, e = PropertiesChanged Call1 ch inv (Some p) /\
                  ch !! "State" = Some "disconnected").

(** [e] is a state change of [p] to ["active"]. *)
Definition activates (e : event) (p : string) : Prop :=
  exists ch inv, e = PropertiesChanged Call1 ch inv (Some p) /\
                 ch !! "State" = Some "active".

(** ** A worked run

    The example of the spec: a call from Alice appears on [/c1], becomes
    active at t=0, its timer fires at t=65, and the call is removed. *)

Definition ex_clock (n : nat) : py_float :=
  match n with
  | 0 | 1 => py_float_of_Z 0
  | _ => py_float_of_Z 65
  end.

Definition ex_props : gmap string string :=
  {[ "State" := "incoming"; "LineIdentification" := "Alice" ]}.

Definition ex_interfaces : gmap string (gmap string string) :=
  {[ Call1 := ex_props ]}.

Definition ex_appeared : event := InterfacesAdded "/c1" ex_interfaces.

(** The same object announced in state ["active"]. *)
Definition ex_props_active : gmap string string :=
  {[ "State" := "active"; "LineIdentification" := "Alice" ]}.

Definition ex_interfaces_active : gmap string (gmap string string) :=
  {[ Call1 := ex_props_active ]}.

Definition ex_activated : event :=
  PropertiesChanged Call1 {[ "State" := "active" ]} [] (Some "/c1").

Definition ex_incoming : world := run [ex_appeared] (main ex_clock).

Definition ex_active : world := run [ex_appeared; ex_activated] (main ex_clock).

Definition ex_ticked : world :=
  run [ex_appeared; ex_activated; Timeout 1] (main ex_clock).

(** An object announced with an empty caller identification. *)
Definition ex_props_anonymous : gmap string string :=
  {[ "State" := "incoming"; "LineIdentification" := "" ]}.

Definition ex_interfaces_anonymous : gmap string (gmap string string) :=
  {[ Call1 := ex_props_anonymous ]}.

(** ** The display format in the spec's words

    "mm:ss" with zero padding: minutes and seconds of the elapsed time
    floored at zero, each written in decimal and padded on the left with
    zeros to two characters. *)

Fixpoint zeros (n : nat) : string :=
  match n with
  | 0 => ""
  | S n => "0" +:+ zeros n
  end.

Definition zero_pad (width : nat) (s : string) : string :=
  zeros (width - String.length s) +:+ s.

Definition spec_mm_ss (seconds : Z) : string :=
  let elapsed := Z.max seconds 0 in
  zero_pad 2 (py_str (elapsed / 60)) +:+ ":" +:+ zero_pad 2 (py_str (elapsed mod 60)).

(** ** Start-up

    [PopupApp.__init__] and [main] with the subscription that may fail.
    The three [add_signal_receiver] calls run in order inside one [try];
    the first one that raises sends control to the handler, which logs,
    prints the traceback and calls [sys.exit(1)]. *)

(** How start-up ends: the process goes on in world [w], or it has left
    with an exit status. *)
Inductive startup :=
| Running (w : world)
| Exited (status : Z) (w : world).

(** The exception of the first call that raises, if any. *)
Fixpoint first_failure (os : list remote_outcome) : option string :=
  match os with
  | [] => None
  | Succeeds :: os' => first_failure os'
  | Fails exc :: _ => Some exc
  end.

(** [PopupApp._subscribe]; the outcomes are those of the receivers for
    InterfacesAdded, InterfacesRemoved and PropertiesChanged. *)
Definition _subscribe (added removed changed : remote_outcome) (w : world) : startup :=
  let w1 := log "Subscribing to PipeWire telephony signals" w in
  match first_failure [added; removed; changed] with
  | None => Running w1
  | Some exc =>
      Exited 1 (emit (ETraceback exc) (log ("Failed to subscribe: " +:+ exc) w1))
  end.

(** [PopupApp.__init__], the session bus being available. *)
Definition PopupApp__init__ (clock : nat -> py_float)
    (added removed changed : remote_outcome) : startup :=
  _subscribe added removed changed (mkWorld ∅ ∅ 0 ∅ 1%positive clock 0 []).

(** [main] up to the call of [Gtk.main()]. *)
Definition main_startup (clock : nat -> py_float)
    (added removed changed : remote_outcome) : startup :=
  match PopupApp__init__ clock added removed changed with
  | Running w => Running (log "Ready for calls (GTK popup)" w)
  | Exited status w => Exited status w
  end.

(** ** The windows on screen *)

(** What holds of the windows in every world the event loop can reach:
    the widgets of a tracked call show its state, and a window that has
    not been destroyed belongs to the tracked call whose path its closures
    captured. *)
Record ui_inv (w : world) : Prop := mkUi {
  ui_incoming : forall p c cw,
    calls w !! p = Some c -> windows w !! window c = Some cw ->
    state c = "incoming" ->
    state_label cw = "Incoming call" /\
    answer_sensitive cw = true /\ hangup_sensitive cw = true;
  ui_active : forall p c cw,
    calls w !! p = Some c -> windows w !! window c = Some cw ->
    state c = "active" ->
    state_label cw = "Call in progress" /\
    answer_sensitive cw = false /\ hangup_sensitive cw = true;
  ui_owned : forall wid cw,
    windows w !! wid = Some cw -> destroyed cw = false ->
    exists c, calls w !! cw_call_path cw = Some c /\ window c = wid;
}.

(** While a call is incoming its window shows the ringing text. *)
Definition ringing_inv (w : world) : Prop :=
  forall p c cw, calls w !! p = Some c -> windows w !! window c = Some cw ->
    state c = "incoming" -> timer_label cw = "Ringingâ€¦".

(** ** The clock *)

(** Every stored start time is a reading the clock gave earlier. *)
Definition starts_past (w : world) : Prop :=
  forall p c st, calls w !! p = Some c -> start_time c = Some st ->
    exists k, k < clock_reads w /\ st = clock w k.

(** The number a float stands for; the infinities and NaN stand for none
    and are given 0. *)
Definition SF2Q (x : py_float) : Q :=
  match x with
  | S754_finite s m e => (inject_Z (cond_Zopp s (Z.pos m)) * 2 ^ e)%Q
  | _ => 0%Q
  end.

Definition float_is_finite (x : py_float) : bool :=
  match x with
  | S754_zero _ | S754_finite _ _ _ => true
  | _ => false
  end.

(** Neither NaN nor below zero. *)
Definition float_nonneg (x : py_float) : Prop :=
  match x with
  | S754_zero _ => True
  | S754_finite s _ _ | S754_infinity s => s = false
  | S754_nan => False
  end.

(** A number, or an infinity, of sign [s]. *)
Definition signed_like (s : bool) (x : py_float) : Prop :=
  match x with
  | S754_zero s' | S754_infinity s' | S754_finite s' _ _ => s' = s
  | S754_nan => False
  end.

(** [time.monotonic()] returns numbers and never goes backwards. *)
Definition monotonic (clock : nat -> py_float) : Prop :=
  forall n, float_is_finite (clock n) = true /\
            (SF2Q (clock n) <= SF2Q (clock (S n)))%Q.

(** The run of the spec's example with readings that are no binary
    fractions: the call becomes active at t=0.1 and its timer fires at
    t=65.1. *)
Definition ex_clock_tenths (n : nat) : py_float :=
  match n with
  | 0 | 1 => py_float_div (py_float_of_Z 1) (py_float_of_Z 10)
  | _ => py_float_div (py_float_of_Z 651) (py_float_of_Z 10)
  end.

Definition ex_active_tenths : world :=
  run [ex_appeared; ex_activated] (main ex_clock_tenths).

(** ** Events and labels *)

(** [e] is a click on one of the two buttons. *)
Definition is_click (e : event) : Prop :=
  match e with
  | AnswerClicked _ _ | HangupClicked _ _ => True
  | _ => False
  end.

(** The call an event names, if it names one. *)
Definition event_path (e : event) : option string :=
  match e with
  | InterfacesAdded p _ | InterfacesRemoved p _ => Some p
  | PropertiesChanged _ _ _ path => path
  | _ => None
  end.

(** [e] is the firing of a timer. *)
Definition is_timeout (e : event) : Prop :=
  match e with
  | Timeout _ => True
  | _ => False
  end.

(** What may be asked of the collaborators when [e] is dispatched in
    world [w]: a source that is removed is live, a window that is
    destroyed exists and has not been destroyed, a source that is added is
    the next fresh one, and the backend is called only on a click. *)
Definition safe_effect (w : world) (e : event) (x : effect) : Prop :=
  match x with
  | ESourceRemove sid => is_Some (sources w !! sid)
  | EDestroy wid => exists cw, windows w !! wid = Some cw /\ destroyed cw = false
  | ETimeoutAdd sid _ => sid = next_source w /\ sources w !! sid = None
  | EDBusCall _ _ => is_click e
  | _ => True
  end.

(** [s] contains the character [":"]. *)
Fixpoint has_colon (s : string) : bool :=
  match s with
  | EmptyString => false
  | String a s' => Ascii.eqb a ":"%char || has_colon s'
  end.

(** * Lemmas *)

(** ** Floats *)

Lemma two_power_pos e : (0 < 2 ^ e)%Q.
Proof. apply Qpower_0_lt. reflexivity. Qed.

Lemma two_power_Z e : (0 <= e)%Z -> (2 ^ e == inject_Z (2 ^ e))%Q.
Proof. intros He. symmetry. apply (Zpower_Qpower 2 e He). Qed.

(** On a positive float [int] is the floor of its value. *)
Lemma SF2Q_pos_floor m e :
  py_int (S754_finite false m e) = Qfloor (SF2Q (S754_finite false m e)).
Proof.
  cbn [py_int SF2Q cond_Zopp].
  destruct e as [|k|k].
  - rewrite Z.pow_0_r, Z.mul_1_r.
    assert (E : (inject_Z (Z.pos m) * 2 ^ 0 == inject_Z (Z.pos m))%Q) by (cbn; ring).
    rewrite E. symmetry. apply Qfloor_Z.
  - assert (E : (inject_Z (Z.pos m) * 2 ^ Z.pos k == inject_Z (Z.pos m * 2 ^ Z.pos k))%Q).
    { rewrite inject_Z_mult, (two_power_Z (Z.pos k)) by lia. reflexivity. }
    rewrite E. symmetry. apply Qfloor_Z.
  - assert (E : (inject_Z (Z.pos m) * 2 ^ Z.neg k == inject_Z (Z.pos m) / inject_Z (2 ^ Z.pos k))%Q).
    { change (Z.neg k) with (- Z.pos k)%Z. rewrite Qpower_opp.
      rewrite (two_power_Z (Z.pos k)) by lia. reflexivity. }
    rewrite E. apply Zdiv_Qdiv.
Qed.

Lemma SF2Q_neg_lt m e : (SF2Q (S754_finite true m e) < 0)%Q.
Proof.
  cbn [SF2Q cond_Zopp].
  assert (H := two_power_pos e).
  assert (Hm : (inject_Z (- Z.pos m) < 0)%Q).
  { change 0%Q with (inject_Z 0). rewrite <- Zlt_Qlt. lia. }
  assert (K := Qmult_lt_compat_r _ _ _ H Hm).
  rewrite Qmult_0_l in K. exact K.
Qed.

Lemma SF2Q_pos_gt m e : (0 < SF2Q (S754_finite false m e))%Q.
Proof.
  cbn [SF2Q cond_Zopp].
  assert (H := two_power_pos e).
  assert (Hm : (0 < inject_Z (Z.pos m))%Q).
  { change 0%Q with (inject_Z 0). rewrite <- Zlt_Qlt. lia. }
  assert (K := Qmult_lt_compat_r _ _ _ H Hm).
  rewrite Qmult_0_l in K. exact K.
Qed.

Lemma py_int_neg_le m e : (py_int (S754_finite true m e) <= 0)%Z.
Proof.
  cbn [py_int cond_Zopp]. destruct e as [|k|k].
  - lia.
  - assert (0 < 2 ^ Z.pos k)%Z by (apply Z.pow_pos_nonneg; lia). nia.
  - assert (0 < 2 ^ Z.pos k)%Z by (apply Z.pow_pos_nonneg; lia).
    assert (0 <= Z.pos m / 2 ^ Z.pos k)%Z by (apply Z.div_pos; lia). lia.
Qed.

Lemma Qfloor_neg q : (q < 0)%Q -> (Qfloor q < 0)%Z.
Proof.
  intros H. rewrite Zlt_Qlt. eapply Qle_lt_trans; [apply Qfloor_le|exact H].
Qed.

(** Floored at zero, [int] of a float is the floor of its value. *)
Lemma py_int_floor d :
  float_is_finite d = true ->
  Z.max (py_int d) 0 = Z.max (Qfloor (SF2Q d)) 0.
Proof.
  destruct d as [s|s| |[] m e]; try discriminate; intros _.
  - reflexivity.
  - assert (H1 := py_int_neg_le m e).
    assert (H2 := Qfloor_neg _ (SF2Q_neg_lt m e)). lia.
  - rewrite SF2Q_pos_floor. reflexivity.
Qed.

Lemma py_int_nonneg d : float_nonneg d -> (0 <= py_int d)%Z.
Proof.
  destruct d as [s|s| |s m e]; cbn [float_nonneg]; try (cbn [py_int]; lia).
  intros ->. rewrite SF2Q_pos_floor.
  assert (H := SF2Q_pos_gt m e).
  assert (Qfloor 0 <= Qfloor (SF2Q (S754_finite false m e)))%Z
    by (apply Qfloor_resp_le, Qlt_le_weak, H).
  exact H0.
Qed.

(** Rounding to nearest keeps the sign: shifting a non-negative
    significand right leaves it non-negative. *)
Lemma shr_1_nonneg mrs : (0 <= shr_m mrs)%Z -> (0 <= shr_m (shr_1 mrs))%Z.
Proof.
  destruct mrs as [m r s]. cbn [shr_m shr_1].
  destruct m as [|[p|p|]|[p|p|]]; cbn; lia.
Qed.

Lemma iter_pos_shr_1_nonneg p mrs :
  (0 <= shr_m mrs)%Z -> (0 <= shr_m (iter_pos shr_1 p mrs))%Z.
Proof.
  revert mrs. induction p as [p IH|p IH|]; intros mrs H; cbn [iter_pos].
  - apply IH, IH, shr_1_nonneg, H.
  - apply IH, IH, H.
  - apply shr_1_nonneg, H.
Qed.

Lemma shr_nonneg mrs e n :
  (0 <= shr_m mrs)%Z -> (0 <= shr_m (fst (shr mrs e n)))%Z.
Proof.
  intros H. unfold shr. destruct n; cbn [fst]; try exact H.
  apply iter_pos_shr_1_nonneg, H.
Qed.

Lemma shr_fexp_nonneg prec emax m e l :
  (0 <= m)%Z -> (0 <= shr_m (fst (shr_fexp prec emax m e l)))%Z.
Proof.
  intros H. unfold shr_fexp. apply shr_nonneg.
  unfold shr_record_of_loc. destruct l as [|[]]; cbn [shr_m]; exact H.
Qed.

Lemma binary_round_aux_sign prec emax s m e l :
  (0 <= m)%Z -> signed_like s (binary_round_aux prec emax s m e l).
Proof.
  intros H. unfold binary_round_aux.
  pose proof (shr_fexp_nonneg prec emax m e l H) as H1.
  destruct (shr_fexp prec emax m e l) as [mrs' e']. cbn [fst] in H1.
  set (m' := round_nearest_even _ _).
  assert (H2 : (0 <= m')%Z).
  { subst m'. unfold round_nearest_even.
    destruct (loc_of_shr_record mrs') as [|[]]; try lia;
    try destruct (Z.even _); lia. }
  pose proof (shr_fexp_nonneg prec emax m' e' loc_Exact H2) as H3.
  destruct (shr_fexp prec emax m' e' loc_Exact) as [mrs'' e'']. cbn [fst] in H3.
  destruct (shr_m mrs'') as [|p|p]; cbn [signed_like]; try reflexivity; try lia.
  destruct (_ <=? _)%Z; reflexivity.
Qed.

Lemma binary_round_sign prec emax s m e :
  signed_like s (binary_round prec emax s m e).
Proof.
  unfold binary_round. destruct (shl_align m e _) as [mz ez].
  apply binary_round_aux_sign. lia.
Qed.

Lemma binary_normalize_nonneg prec emax m e :
  (0 <= m)%Z -> float_nonneg (binary_normalize prec emax m e false).
Proof.
  intros H. unfold binary_normalize. destruct m as [|p|p]; try lia.
  - exact I.
  - pose proof (binary_round_sign prec emax false p e) as Hs.
    destruct (binary_round prec emax false p e); cbn in *; auto.
Qed.

(** Aligning a significand to a smaller exponent keeps the value. *)
Lemma shl_align_value m e ez :
  (ez <= e)%Z ->
  (inject_Z (Z.pos (fst (shl_align m e ez))) * 2 ^ ez == inject_Z (Z.pos m) * 2 ^ e)%Q.
Proof.
  intros H. unfold shl_align.
  destruct (ez - e)%Z as [|d|d] eqn:E.
  - assert (ez = e) by lia. subst. reflexivity.
  - lia.
  - cbn [fst]. change (Pos.iter xO m d) with (shift_pos d m).
    rewrite shift_pos_correct, Zpower_pos_nat, <- positive_nat_Z.
    assert (e = Z.pos d + ez)%Z as -> by lia.
    rewrite Qpower_plus by discriminate.
    rewrite inject_Z_mult, Zpower_nat_Z, positive_nat_Z, positive_nat_Z.
    rewrite (two_power_Z (Z.pos d)) by lia. ring.
Qed.

Lemma aligned_value s m e ez :
  (ez <= e)%Z ->
  (inject_Z (cond_Zopp s (Z.pos (fst (shl_align m e ez)))) * 2 ^ ez
   == SF2Q (S754_finite s m e))%Q.
Proof.
  intros H. cbn [SF2Q]. destruct s; cbn [cond_Zopp].
  - rewrite !inject_Z_opp.
    pose proof (shl_align_value m e ez H) as K.
    rewrite <- (Qopp_opp (- inject_Z (Z.pos m) * 2 ^ e)%Q).
    assert (E1 : (- (- inject_Z (Z.pos m) * 2 ^ e) == inject_Z (Z.pos m) * 2 ^ e)%Q) by ring.
    assert (E2 : (- inject_Z (Z.pos (fst (shl_align m e ez))) * 2 ^ ez
                  == - (inject_Z (Z.pos (fst (shl_align m e ez))) * 2 ^ ez))%Q) by ring.
    rewrite E2, K. ring.
  - apply shl_align_value, H.
Qed.

(** The rounded difference of two numbers in order is not NaN and not
    below zero. *)
Lemma py_float_sub_nonneg x y :
  float_is_finite x = true -> float_is_finite y = true ->
  (SF2Q y <= SF2Q x)%Q ->
  float_nonneg (py_float_sub x y).
Proof.
  intros Fx Fy Hle. unfold py_float_sub.
  destruct x as [sx|sx| |sx mx ex]; try discriminate;
  destruct y as [sy|sy| |sy my ey]; try discriminate.
  - destruct sx, sy; exact I.
  - cbn [SFsub float_nonneg]. destruct sy; [reflexivity|].
    exfalso. pose proof (SF2Q_pos_gt my ey) as H. cbn [SF2Q] in Hle, H.
    apply (Qlt_irrefl 0). eapply Qlt_le_trans; [exact H|exact Hle].
  - cbn [SFsub float_nonneg]. destruct sx; [|reflexivity].
    exfalso. pose proof (SF2Q_neg_lt mx ex) as H.
    apply (Qlt_irrefl 0). eapply Qle_lt_trans; [exact Hle|exact H].
  - cbn [SFsub]. apply binary_normalize_nonneg.
    set (ez := Z.min ex ey).
    pose proof (aligned_value sx mx ex ez ltac:(lia)) as Hx.
    pose proof (aligned_value sy my ey ez ltac:(lia)) as Hy.
    rewrite <- Hx, <- Hy in Hle.
    apply Qmult_le_r in Hle; [|apply two_power_pos].
    rewrite <- Zle_Qle in Hle. lia.
Qed.

(** ** Strings and traces *)

Lemma string_eqb_true (a b : string) : String.eqb a b = true <-> a = b.
Proof. apply String.eqb_eq. Qed.

Lemma string_eqb_false (a b : string) : String.eqb a b = false <-> a <> b.
Proof. apply String.eqb_neq. Qed.

Lemma str_or_nonempty (s d : string) : d <> "" -> str_or s d <> "".
Proof.
  intros Hd. unfold str_or. destruct (String.eqb s "") eqn:E; [exact Hd|].
  apply string_eqb_false in E. exact E.
Qed.

Lemma new_effects_app (w w' : world) (l : list effect) :
  trace w' = (trace w ++ l)%list -> new_effects w w' = l.
Proof. intros H. unfold new_effects. rewrite H. apply drop_app_length. Qed.

Lemma registry_nodup (w : world) : NoDup (map_to_list (calls w)).*1.
Proof. apply NoDup_fst_map_to_list. Qed.

(** *** [_update_timer] *)

Lemma update_timer_calls p w : calls (_update_timer p w).1 = calls w.
Proof.
  unfold _update_timer.
  destruct (calls w !! p) as [c|]; [|reflexivity].
  destruct (negb _); [reflexivity|].
  destruct (start_time c); reflexivity.
Qed.

Lemma update_timer_sources p w : sources (_update_timer p w).1 = sources w.
Proof.
  unfold _update_timer.
  destruct (calls w !! p) as [c|]; [|reflexivity].
  destruct (negb _); [reflexivity|].
  destruct (start_time c); reflexivity.
Qed.

Lemma update_timer_trace p w : trace (_update_timer p w).1 = trace w.
Proof.
  unfold _update_timer.
  destruct (calls w !! p) as [c|]; [|reflexivity].
  destruct (negb _); [reflexivity|].
  destruct (start_time c); reflexivity.
Qed.

Lemma update_timer_next p w :
  next_window (_update_timer p w).1 = next_window w /\
  next_source (_update_timer p w).1 = next_source w.
Proof.
  unfold _update_timer.
  destruct (calls w !! p) as [c|]; [|done].
  destruct (negb _); [done|].
  destruct (start_time c); done.
Qed.

(** The callback changes at most the timer label of the call's window. *)
Lemma update_timer_windows p w :
  windows (_update_timer p w).1 = windows w \/
  exists c text, calls w !! p = Some c /\
    windows (_update_timer p w).1 =
      alter (cw_set_timer_label text) (window c) (windows w).
Proof.
  unfold _update_timer.
  destruct (calls w !! p) as [c|]; [|by left].
  destruct (negb _); [by left|].
  destruct (start_time c); [|by left].
  right. eexists _, _. split; reflexivity.
Qed.

(** *** [_close_call] *)

Lemma gtk_destroy_calls wid w : calls (gtk_destroy wid w).1 = calls w.
Proof.
  unfold gtk_destroy; cbn.
  destruct (windows w !! wid) as [cw|]; [destruct (destroyed cw)|]; reflexivity.
Qed.

Lemma remove_timer_calls c w : calls (remove_timer c w) = calls w.
Proof. unfold remove_timer. destruct (timer_id c); reflexivity. Qed.

Lemma close_call_unfold p w :
  _close_call p w =
  match calls w !! p with
  | None => w
  | Some call =>
      match gtk_destroy (window call) (remove_timer call (set_calls (delete p) w)) with
      | (w', Some q) => log ("Closed call UI for " +:+ p) (_close_call q w')
      | (w', None) => log ("Closed call UI for " +:+ p) w'
      end
  end.
Proof.
  funelim (_close_call p w).
  - rewrite e. reflexivity.
  - rewrite Hpop, Hdestroy. reflexivity.
  - rewrite Hpop, e. reflexivity.
Qed.

Lemma close_call_untracked p w : calls w !! p = None -> _close_call p w = w.
Proof. intros H. rewrite close_call_unfold, H. reflexivity. Qed.

(** Closing never adds or changes an entry. *)
Lemma close_call_lookup_Some p w :
  forall q c, calls (_close_call p w) !! q = Some c -> calls w !! q = Some c.
Proof.
  funelim (_close_call p w); intros q c; cbn.
  - done.
  - intros Hq. apply H in Hq.
    replace (calls w') with (calls (gtk_destroy (window call)
      (remove_timer call (set_calls (delete call_path) w))).1) in Hq
      by (rewrite Hdestroy; reflexivity).
    rewrite gtk_destroy_calls, remove_timer_calls in Hq. cbn in Hq.
    apply lookup_delete_Some in Hq. tauto.
  - replace (calls w') with (calls (gtk_destroy (window call)
      (remove_timer call (set_calls (delete call_path) w))).1)
      by (rewrite e; reflexivity).
    rewrite gtk_destroy_calls, remove_timer_calls. cbn.
    intros Hq. apply lookup_delete_Some in Hq. tauto.
Qed.

(** After closing, the identifier is not tracked. *)
Lemma close_call_lookup_None p w : calls (_close_call p w) !! p = None.
Proof.
  destruct (calls (_close_call p w) !! p) as [c|] eqn:E; [|reflexivity].
  exfalso. revert E. rewrite close_call_unfold.
  destruct (calls w !! p) as [c0|] eqn:Hp; [|congruence].
  destruct (gtk_destroy _ _) as [w' [q|]] eqn:Hd; cbn; intros E.
  - apply close_call_lookup_Some in E. revert E.
    replace (calls w') with (calls (gtk_destroy (window c0)
      (remove_timer c0 (set_calls (delete p) w))).1) by (rewrite Hd; reflexivity).
    rewrite gtk_destroy_calls, remove_timer_calls. cbn.
    rewrite lookup_delete_eq. done.
  - revert E.
    replace (calls w') with (calls (gtk_destroy (window c0)
      (remove_timer c0 (set_calls (delete p) w))).1) by (rewrite Hd; reflexivity).
    rewrite gtk_destroy_calls, remove_timer_calls. cbn.
    rewrite lookup_delete_eq. done.
Qed.

(** *** [_mark_active] *)

Lemma mark_active_untracked p w : calls w !! p = None -> _mark_active p w = w.
Proof. intros H. unfold _mark_active. rewrite H. reflexivity. Qed.

Lemma mark_active_calls p w c :
  calls w !! p = Some c ->
  calls (_mark_active p w) =
    <[p := activated c (clock w (clock_reads w)) (next_source w)]> (calls w).
Proof.
  intros H. unfold _mark_active. rewrite H. cbn.
  rewrite update_timer_calls. unfold remove_timer.
  destruct (timer_id c); reflexivity.
Qed.

Lemma mark_active_sources p w c :
  calls w !! p = Some c ->
  sources (_mark_active p w) =
    <[next_source w := p]>
      (match timer_id c with
       | Some old => delete old (sources w)
       | None => sources w
       end).
Proof.
  intros H. unfold _mark_active. rewrite H. cbn.
  rewrite update_timer_sources. unfold remove_timer.
  destruct (timer_id c); reflexivity.
Qed.

Lemma mark_active_trace p w c :
  calls w !! p = Some c ->
  trace (_mark_active p w) =
    (trace w ++ [EPresent (window c)] ++
     match timer_id c with Some old => [ESourceRemove old] | None => [] end ++
     [ETimeoutAdd (next_source w) p])%list.
Proof.
  intros H. unfold _mark_active. rewrite H. cbn.
  rewrite update_timer_trace. unfold remove_timer.
  destruct (timer_id c); cbn; rewrite <- ?app_assoc; reflexivity.
Qed.

Lemma mark_active_windows p w c :
  calls w !! p = Some c ->
  windows (_mark_active p w) =
    alter (cw_set_timer_label
             (timer_text (py_int (py_float_sub (clock w (S (clock_reads w)))
                                               (clock w (clock_reads w))))))
          (window c) (alter cw_show_active (window c) (windows w)).
Proof.
  intros H. unfold _mark_active. rewrite H. cbn.
  unfold _update_timer. cbn. rewrite lookup_insert_eq. cbn.
  unfold remove_timer. destruct (timer_id c); reflexivity.
Qed.

Lemma mark_active_next p w c :
  calls w !! p = Some c ->
  next_window (_mark_active p w) = next_window w /\
  next_source (_mark_active p w) = Pos.succ (next_source w).
Proof.
  intros H. unfold _mark_active. rewrite H. cbn.
  unfold _update_timer. cbn. rewrite lookup_insert_eq. cbn.
  unfold remove_timer. destruct (timer_id c); done.
Qed.

Lemma close_call_tracked p w c cw :
  calls w !! p = Some c ->
  windows w !! window c = Some cw ->
  destroyed cw = false ->
  cw_call_path cw = p ->
  _close_call p w =
    log ("Closed call UI for " +:+ p)
      (set_windows (<[window c := cw_set_destroyed cw]>)
         (emit (EDestroy (window c))
            (remove_timer c (set_calls (delete p) w)))).
Proof.
  intros Hc Hw Hd Hp. rewrite close_call_unfold, Hc.
  unfold gtk_destroy.
  assert (Hw' : windows (emit (EDestroy (window c))
             (remove_timer c (set_calls (delete p) w))) !! window c = Some cw).
  { unfold remove_timer. destruct (timer_id c); exact Hw. }
  rewrite Hw', Hd, Hp. rewrite close_call_untracked; [reflexivity|].
  cbn. rewrite remove_timer_calls. cbn. apply lookup_delete_eq.
Qed.

(** *** Preservation of [wf] *)

(** [wf] only reads the registry, the windows, the sources and the two
    counters. *)
Lemma wf_frame w w' :
  calls w' = calls w -> windows w' = windows w ->
  next_window w' = next_window w -> sources w' = sources w ->
  next_source w' = next_source w -> wf w -> wf w'.
Proof.
  intros Hc Hw Hnw Hs Hns [Ht Hst Hsta Hcal Hwin Hwfr Hsrc Hsfr].
  constructor; rewrite ?Hc, ?Hw, ?Hnw, ?Hs, ?Hns; assumption.
Qed.

(** Rewriting the labels of one window keeps [wf]. *)
Lemma wf_alter_window (f : CallWindow -> CallWindow) wid w w' :
  (forall cw, cw_call_path (f cw) = cw_call_path cw /\
              destroyed (f cw) = destroyed cw /\
              caller_label (f cw) = caller_label cw) ->
  calls w' = calls w -> windows w' = alter f wid (windows w) ->
  next_window w' = next_window w -> sources w' = sources w ->
  next_source w' = next_source w -> wf w -> wf w'.
Proof.
  intros Hf Hc Hw Hnw Hs Hns [Ht Hst Hsta Hcal Hwin Hwfr Hsrc Hsfr].
  constructor; rewrite ?Hc, ?Hw, ?Hnw, ?Hs, ?Hns; try assumption.
  - intros p c Hp. destruct (Hwin p c Hp) as (cw & H1 & H2 & H3 & H4).
    destruct (decide (wid = window c)) as [->|Hne].
    + exists (f cw). rewrite lookup_alter_eq, H1. cbn.
      destruct (Hf cw) as (-> & -> & ->). done.
    + exists cw. rewrite lookup_alter_ne by done. done.
  - intros wid' Hsome. apply Hwfr.
    destruct (decide (wid = wid')) as [->|Hne].
    + rewrite lookup_alter_eq in Hsome. by apply fmap_is_Some in Hsome.
    + by rewrite lookup_alter_ne in Hsome.
Qed.

Lemma wf_update_timer p w : wf w -> wf (_update_timer p w).1.
Proof.
  intros Hwf. destruct (update_timer_next p w) as [Hnw Hns].
  destruct (update_timer_windows p w) as [Hw | (c & text & _ & Hw)].
  - eapply wf_frame; eauto using update_timer_calls, update_timer_sources.
  - apply (wf_alter_window (cw_set_timer_label text) (window c) w);
      [done | apply update_timer_calls | exact Hw | exact Hnw
      | apply update_timer_sources | exact Hns | exact Hwf].
Qed.

Lemma wf_mark_active p w : wf w -> wf (_mark_active p w).
Proof.
  intros Hwf. destruct (calls w !! p) as [c|] eqn:Hp;
    [|by rewrite mark_active_untracked].
  pose proof (mark_active_calls p w c Hp) as Hc.
  pose proof (mark_active_sources p w c Hp) as Hs.
  pose proof (mark_active_windows p w c Hp) as Hw.
  destruct (mark_active_next p w c Hp) as [Hnw Hns].
  destruct Hwf as [Ht Hst Hsta Hcal Hwin Hwfr Hsrc Hsfr].
  assert (Hlook : forall q c0, calls (_mark_active p w) !! q = Some c0 ->
            (q = p /\ c0 = activated c (clock w (clock_reads w)) (next_source w)) \/
            (q <> p /\ calls w !! q = Some c0)).
  { intros q c0. rewrite Hc. intros Hq. apply lookup_insert_Some in Hq.
    destruct Hq as [[<- <-]|[? ?]]; [left|right]; done. }
  constructor.
  - intros q c0 Hq. destruct (Hlook q c0 Hq) as [[-> ->]|[_ Hq']]; [done|eauto].
  - intros q c0 Hq. destruct (Hlook q c0 Hq) as [[-> ->]|[_ Hq']]; [by right|eauto].
  - intros q c0 Hq. destruct (Hlook q c0 Hq) as [[-> ->]|[_ Hq']]; [done|eauto].
  - intros q c0 Hq. destruct (Hlook q c0 Hq) as [[-> ->]|[_ Hq']]; cbn; eauto.
  - intros q c0 Hq. rewrite Hw.
    assert (exists cw, windows w !! window c0 = Some cw /\ cw_call_path cw = q /\
              destroyed cw = false /\ caller_label cw = "From: " +:+ caller_id c0)
      as (cw & H1 & H2 & H3 & H4).
    { destruct (Hlook q c0 Hq) as [[-> ->]|[_ Hq']]; cbn; eauto. }
    destruct (decide (window c = window c0)) as [He|Hne].
    + rewrite He, !lookup_alter_eq, H1. cbn. eexists. split; [reflexivity|]. done.
    + rewrite !lookup_alter_ne by done. eauto.
  - intros wid Hsome. rewrite Hnw. apply Hwfr.
    rewrite Hw in Hsome.
    destruct (decide (window c = wid)) as [<-|Hne].
    + rewrite !lookup_alter_eq in Hsome.
      apply fmap_is_Some in Hsome. by apply fmap_is_Some in Hsome.
    + by rewrite !lookup_alter_ne in Hsome.
  - assert (Hold : forall old, timer_id c = Some old -> sources w !! old = Some p).
    { intros old Ho. apply Hsrc. eauto. }
    assert (Hfresh : sources w !! next_source w = None).
    { destruct (sources w !! next_source w) eqn:E; [|done].
      assert (next_source w < next_source w)%positive by (apply Hsfr; eauto).
      lia. }
    intros sid q. rewrite Hs, Hc. split.
    + intros Hsid. apply lookup_insert_Some in Hsid.
      destruct Hsid as [[<- <-]|[Hne Hsid]].
      { eexists. rewrite lookup_insert_eq. split; reflexivity. }
      assert (sources w !! sid = Some q /\ timer_id c <> Some sid) as [Hsrc' Hnot].
      { destruct (timer_id c) as [old|] eqn:Htc.
        - apply lookup_delete_Some in Hsid. destruct Hsid as [? ?].
          split; [done|congruence].
        - done. }
      apply Hsrc in Hsrc'. destruct Hsrc' as (c0 & Hq & Ht0).
      destruct (decide (q = p)) as [->|Hqp]; [congruence|].
      exists c0. by rewrite lookup_insert_ne.
    + intros (c0 & Hq & Ht0). apply lookup_insert_Some in Hq.
      destruct Hq as [[<- <-]|[Hne Hq]].
      { cbn in Ht0. injection Ht0 as <-. apply lookup_insert_eq. }
      assert (Hsrc' : sources w !! sid = Some q) by (apply Hsrc; eauto).
      rewrite lookup_insert_ne by (intros <-; congruence).
      destruct (timer_id c) as [old|] eqn:Htc; [|done].
      rewrite lookup_delete_ne; [done|].
      intros <-. rewrite (Hold old eq_refl) in Hsrc'. congruence.
  - intros sid Hsome. rewrite Hns. rewrite Hs in Hsome.
    destruct (decide (next_source w = sid)) as [<-|Hne]; [lia|].
    rewrite lookup_insert_ne in Hsome by done.
    assert (is_Some (sources w !! sid)).
    { destruct (timer_id c); [|done].
      destruct Hsome as [x Hx]. apply lookup_delete_Some in Hx.
      destruct Hx as [_ Hx]. eauto. }
    assert (sid < next_source w)%positive by eauto. lia.
Qed.

Lemma wf_close_call p w : wf w -> wf (_close_call p w).
Proof.
  intros Hwf. destruct (calls w !! p) as [c|] eqn:Hp;
    [|by rewrite close_call_untracked].
  destruct (wf_window w Hwf p c Hp) as (cw & Hcw & Hpath & Hd & _).
  rewrite (close_call_tracked p w c cw Hp Hcw Hd Hpath).
  destruct Hwf as [Ht Hst Hsta Hcal Hwin Hwfr Hsrc Hsfr].
  assert (Hs : sources (remove_timer c (set_calls (delete p) w)) =
               match timer_id c with
               | Some old => delete old (sources w)
               | None => sources w
               end).
  { unfold remove_timer. destruct (timer_id c); reflexivity. }
  assert (Hw : windows (remove_timer c (set_calls (delete p) w)) = windows w).
  { unfold remove_timer. destruct (timer_id c); reflexivity. }
  assert (Hnw : next_window (remove_timer c (set_calls (delete p) w)) = next_window w).
  { unfold remove_timer. destruct (timer_id c); reflexivity. }
  assert (Hns : next_source (remove_timer c (set_calls (delete p) w)) = next_source w).
  { unfold remove_timer. destruct (timer_id c); reflexivity. }
  constructor; cbn; rewrite ?remove_timer_calls, ?Hs, ?Hw, ?Hnw, ?Hns; cbn.
  - intros q c0 Hq. apply lookup_delete_Some in Hq. destruct Hq; eauto.
  - intros q c0 Hq. apply lookup_delete_Some in Hq. destruct Hq; eauto.
  - intros q c0 Hq. apply lookup_delete_Some in Hq. destruct Hq; eauto.
  - intros q c0 Hq. apply lookup_delete_Some in Hq. destruct Hq; eauto.
  - intros q c0 Hq. apply lookup_delete_Some in Hq. destruct Hq as [Hne Hq].
    destruct (Hwin q c0 Hq) as (cw0 & H1 & H2 & H3 & H4).
    exists cw0. rewrite lookup_insert_ne; [done|].
    intros He. rewrite He in Hcw. congruence.
  - intros wid Hsome. apply Hwfr.
    destruct (decide (window c = wid)) as [<-|Hne]; [eauto|].
    by rewrite lookup_insert_ne in Hsome.
  - intros sid q. split.
    + intros Hsid.
      assert (sources w !! sid = Some q /\ timer_id c <> Some sid) as [Hsrc' Hnot].
      { destruct (timer_id c) as [old|] eqn:Htc.
        - apply lookup_delete_Some in Hsid. destruct Hsid as [? ?].
          split; [done|congruence].
        - done. }
      apply Hsrc in Hsrc'. destruct Hsrc' as (c0 & Hq & Ht0).
      exists c0. split; [|done]. rewrite lookup_delete_ne; [done|].
      intros <-. congruence.
    + intros (c0 & Hq & Ht0). apply lookup_delete_Some in Hq. destruct Hq as [Hne Hq].
      assert (Hsrc' : sources w !! sid = Some q) by (apply Hsrc; eauto).
      destruct (timer_id c) as [old|] eqn:Htc; [|done].
      rewrite lookup_delete_ne; [done|].
      intros <-. assert (sources w !! old = Some p) by (apply Hsrc; eauto).
      congruence.
  - intros sid Hsome. apply Hsfr.
    destruct (timer_id c); [|done].
    destruct Hsome as [x Hx]. apply lookup_delete_Some in Hx.
    destruct Hx as [_ Hx]. eauto.
Qed.

(** *** [_show_window] *)

Lemma show_window_tracked p cid st w c :
  calls w !! p = Some c -> _show_window p cid st w = present (window c) w.
Proof. intros H. unfold _show_window. rewrite H. reflexivity. Qed.

Lemma show_window_incoming p cid w :
  calls w !! p = None ->
  _show_window p cid "incoming" w =
    mkWorld (<[p := incoming_entry cid (next_window w)]> (calls w))
            (<[next_window w := cw_show_incoming (CallWindow_init p cid)]> (windows w))
            (S (next_window w)) (sources w) (next_source w)
            (clock w) (clock_reads w)
            (trace w ++ [EWindowNew (next_window w) (str_or cid "Unknown");
                         EShowAll (next_window w); EPresent (next_window w)]).
Proof.
  intros H. unfold _show_window. rewrite H. cbn.
  unfold show_incoming, present, emit, set_windows. cbn.
  rewrite alter_insert_eq, <- !app_assoc. reflexivity.
Qed.

Lemma wf_show_window p cid w : wf w -> wf (_show_window p cid "incoming" w).
Proof.
  intros Hwf. destruct (calls w !! p) as [c|] eqn:Hp.
  { rewrite (show_window_tracked _ _ _ _ _ Hp). revert Hwf. by apply wf_frame. }
  rewrite (show_window_incoming _ _ _ Hp).
  destruct Hwf as [Ht Hst Hsta Hcal Hwin Hwfr Hsrc Hsfr].
  assert (Hlook : forall q c0,
            <[p := incoming_entry cid (next_window w)]> (calls w) !! q = Some c0 ->
            (q = p /\ c0 = incoming_entry cid (next_window w)) \/
            (q <> p /\ calls w !! q = Some c0)).
  { intros q c0 Hq. apply lookup_insert_Some in Hq.
    destruct Hq as [[<- <-]|[? ?]]; [left|right]; done. }
  constructor; cbn.
  - intros q c0 Hq. destruct (Hlook q c0 Hq) as [[-> ->]|[_ Hq']]; [done|eauto].
  - intros q c0 Hq. destruct (Hlook q c0 Hq) as [[-> ->]|[_ Hq']]; [by left|eauto].
  - intros q c0 Hq. destruct (Hlook q c0 Hq) as [[-> ->]|[_ Hq']]; [done|eauto].
  - intros q c0 Hq. destruct (Hlook q c0 Hq) as [[-> ->]|[_ Hq']]; [|eauto].
    cbn. by apply str_or_nonempty.
  - intros q c0 Hq. destruct (Hlook q c0 Hq) as [[-> ->]|[_ Hq']].
    + cbn. rewrite lookup_insert_eq. eexists. split; [reflexivity|]. done.
    + destruct (Hwin q c0 Hq') as (cw0 & H1 & H2 & H3 & H4).
      exists cw0. rewrite lookup_insert_ne; [done|].
      intros He. assert (window c0 < next_window w) by (apply Hwfr; eauto). lia.
  - intros wid Hsome.
    destruct (decide (next_window w = wid)) as [<-|Hne]; [lia|].
    rewrite lookup_insert_ne in Hsome by done.
    assert (wid < next_window w) by eauto. lia.
  - intros sid q. rewrite Hsrc. split.
    + intros (c0 & Hq & Ht0). exists c0. split; [|done].
      rewrite lookup_insert_ne; [done|]. intros <-. congruence.
    + intros (c0 & Hq & Ht0). destruct (Hlook q c0 Hq) as [[-> ->]|[_ Hq']]; [done|eauto].
  - exact Hsfr.
Qed.

(** *** The event loop *)

Lemma wf_step e w : wf w -> wf (step e w).
Proof.
  intros Hwf. destruct e as [path ifs|path ifs|i ch inv path|sid|wid o|wid o|wid]; cbn.
  - unfold on_interfaces_added.
    destruct (ifs !! Call1) as [props|]; [|done].
    destruct (bool_decide _); [done|].
    destruct (String.eqb _ "incoming").
    + apply wf_show_window. revert Hwf. by apply wf_frame.
    + revert Hwf. by apply wf_frame.
  - unfold on_interfaces_removed. destruct (bool_decide _); [|done].
    apply wf_close_call. revert Hwf. by apply wf_frame.
  - unfold on_properties_changed.
    destruct (negb (String.eqb i Call1)); [done|].
    destruct (negb (truthy_str (ch !! "State"))); [done|].
    destruct (negb (truthy_str path)); [done|].
    destruct (String.eqb _ "active").
    { apply wf_mark_active. revert Hwf. by apply wf_frame. }
    destruct (String.eqb _ "disconnected").
    { apply wf_close_call. revert Hwf. by apply wf_frame. }
    revert Hwf. by apply wf_frame.
  - unfold glib_dispatch. destruct (sources w !! sid) as [p|] eqn:Hsid; [|done].
    pose proof (wf_update_timer p w Hwf) as Hwf'.
    destruct (_update_timer p w) as [w1 [|]] eqn:Hu; [exact Hwf'|].
    (* the callback returned False: the call is untracked or not active,
       which a live source excludes *)
    exfalso. apply (wf_sources w Hwf) in Hsid. destruct Hsid as (c & Hc & Htc).
    assert (Hact : state c = "active") by (apply (wf_timer w Hwf p c Hc); congruence).
    assert (Hst : start_time c <> None) by (by apply (wf_start w Hwf p c Hc)).
    revert Hu. unfold _update_timer. rewrite Hc, Hact. cbn.
    destruct (start_time c); [|done]. cbn. congruence.
  - unfold clicked. destruct (windows w !! wid) as [cw|]; [|done].
    destruct (_ || _); [done|]. destruct o; revert Hwf; by apply wf_frame.
  - unfold clicked. destruct (windows w !! wid) as [cw|]; [|done].
    destruct (_ || _); [done|]. destruct o; revert Hwf; by apply wf_frame.
  - done.
Qed.

Lemma wf_run es : forall w, wf w -> wf (run es w).
Proof.
  induction es as [|e es IH]; intros w Hwf; [exact Hwf|].
  cbn. apply IH, wf_step, Hwf.
Qed.

Lemma wf_main clock : wf (main clock).
Proof.
  constructor; cbn; try done.
  - intros wid [x Hx]. done.
  - intros sid p. split; [done|]. intros (c & Hc & _). done.
  - intros sid [x Hx]. done.
Qed.

Lemma reachable_wf w : reachable w -> wf w.
Proof. intros (clock & es & ->). apply wf_run, wf_main. Qed.

Lemma reachable_step e w : reachable w -> reachable (step e w).
Proof.
  intros (clock & es & ->). exists clock, (es ++ [e])%list.
  unfold run. rewrite foldl_app. reflexivity.
Qed.

(** *** Preservation of [registry_inv] *)

Lemma registry_inv_frame w w' :
  calls w' = calls w -> registry_inv w -> registry_inv w'.
Proof. intros Hc [_ H]. split; [apply registry_nodup|]. by rewrite Hc. Qed.

Lemma registry_inv_mark_active p w : registry_inv w -> registry_inv (_mark_active p w).
Proof.
  intros Hinv. destruct (calls w !! p) as [c|] eqn:Hp;
    [|by rewrite mark_active_untracked].
  split; [apply registry_nodup|]. intros q c0.
  rewrite (mark_active_calls p w c Hp). intros Hq.
  apply lookup_insert_Some in Hq. destruct Hq as [[<- <-]|[_ Hq]]; [done|].
  by apply (proj2 Hinv q).
Qed.

Lemma registry_inv_close_call p w : registry_inv w -> registry_inv (_close_call p w).
Proof.
  intros [_ H]. split; [apply registry_nodup|]. intros q c Hq.
  apply close_call_lookup_Some in Hq. by apply (H q).
Qed.

Lemma registry_inv_show_window p cid w :
  registry_inv w -> registry_inv (_show_window p cid "incoming" w).
Proof.
  intros Hinv. destruct (calls w !! p) as [c|] eqn:Hp.
  { rewrite (show_window_tracked _ _ _ _ _ Hp). revert Hinv. by apply registry_inv_frame. }
  rewrite (show_window_incoming _ _ _ Hp).
  split; [apply registry_nodup|]. intros q c0. cbn. intros Hq.
  apply lookup_insert_Some in Hq. destruct Hq as [[<- <-]|[_ Hq]]; [done|].
  by apply (proj2 Hinv q).
Qed.

Lemma registry_inv_added path ifs w :
  registry_inv w -> registry_inv (on_interfaces_added path ifs w).
Proof.
  intros Hinv. unfold on_interfaces_added.
  destruct (ifs !! Call1) as [props|]; [|done].
  destruct (bool_decide _); [done|].
  destruct (String.eqb _ "incoming").
  - apply registry_inv_show_window. revert Hinv. by apply registry_inv_frame.
  - revert Hinv. by apply registry_inv_frame.
Qed.

Lemma registry_inv_changed i ch inv path w :
  registry_inv w -> registry_inv (on_properties_changed i ch inv path w).
Proof.
  intros Hinv. unfold on_properties_changed.
  destruct (negb (String.eqb i Call1)); [done|].
  destruct (negb (truthy_str (ch !! "State"))); [done|].
  destruct (negb (truthy_str path)); [done|].
  destruct (String.eqb _ "active").
  { apply registry_inv_mark_active. revert Hinv. by apply registry_inv_frame. }
  destruct (String.eqb _ "disconnected").
  { apply registry_inv_close_call. revert Hinv. by apply registry_inv_frame. }
  revert Hinv. by apply registry_inv_frame.
Qed.

Lemma registry_inv_removed path ifs w :
  registry_inv w -> registry_inv (on_interfaces_removed path ifs w).
Proof.
  intros Hinv. unfold on_interfaces_removed. destruct (bool_decide _); [|done].
  apply registry_inv_close_call. revert Hinv. by apply registry_inv_frame.
Qed.

Lemma ex_active_calls :
  calls ex_active =
    {[ "/c1" := activated (incoming_entry "Alice" 0) (py_float_of_Z 0) 1%positive ]}.
Proof. vm_compute. reflexivity. Qed.

(** * Properties of the registry *)

(** C1.  The registry invariant (at most one entry per call identifier; an
    entry holds a timer if and only if its state is active) is preserved by
    every operation: call appeared, state changed, call removed and the
    timer tick. *)
Theorem registry_inv_preserved w :
  registry_inv w ->
  (forall path ifs, registry_inv (on_interfaces_added path ifs w)) /\
  (forall i ch inv path, registry_inv (on_properties_changed i ch inv path w)) /\
  (forall path ifs, registry_inv (on_interfaces_removed path ifs w)) /\
  (forall p, registry_inv (_update_timer p w).1).
Proof.
  intros Hinv. repeat split_and.
  - intros. by apply registry_inv_added.
  - intros. by apply registry_inv_changed.
  - intros. by apply registry_inv_removed.
  - intros p. revert Hinv. apply registry_inv_frame, update_timer_calls.
Qed.

Lemma registry_inv_preserved_witness :
  registry_inv ex_active /\
  registry_inv (on_interfaces_removed "/c1" [Call1] ex_active) /\
  registry_inv (_update_timer "/c1" ex_active).1.
Proof.
  assert (H : registry_inv ex_active).
  { split; [apply NoDup_fst_map_to_list|].
    intros p c. rewrite ex_active_calls. intros Hp.
    apply lookup_singleton_Some in Hp. destruct Hp as [_ <-].
    cbn. split; intros _; [reflexivity | discriminate]. }
  pose proof (registry_inv_preserved ex_active H) as (_ & _ & Hr & Ht).
  split; [exact H|].
  split; [exact (Hr "/c1" [Call1]) | exact (Ht "/c1")].
Defined.

(** *** What one event does to the registry *)

Lemma close_call_calls p w : wf w -> calls (_close_call p w) = delete p (calls w).
Proof.
  intros Hwf. destruct (calls w !! p) as [c|] eqn:Hp.
  - destruct (wf_window w Hwf p c Hp) as (cw & Hcw & Hpath & Hd & _).
    rewrite (close_call_tracked p w c cw Hp Hcw Hd Hpath). cbn.
    apply remove_timer_calls.
  - rewrite close_call_untracked by done. symmetry. by apply delete_id.
Qed.

Lemma on_interfaces_added_calls path ifs w :
  calls (on_interfaces_added path ifs w) = calls w \/
  (calls w !! path = None /\ exists cid,
     calls (on_interfaces_added path ifs w) =
       <[path := incoming_entry cid (next_window w)]> (calls w)).
Proof.
  unfold on_interfaces_added.
  destruct (ifs !! Call1) as [props|]; [|by left].
  destruct (bool_decide _); [by left|].
  destruct (String.eqb _ "incoming"); [|by left].
  match goal with |- context [_show_window _ ?cid _ ?w1] =>
    set (w' := w1); set (c := cid) end.
  destruct (calls w !! path) as [c0|] eqn:Hp.
  - left. rewrite (show_window_tracked path c "incoming" w' c0 Hp). reflexivity.
  - right. split; [done|]. exists c.
    rewrite (show_window_incoming path c w' Hp). reflexivity.
Qed.

Lemma on_interfaces_removed_calls path ifs w :
  wf w ->
  calls (on_interfaces_removed path ifs w) = calls w \/
  (Call1 ∈ ifs /\ calls (on_interfaces_removed path ifs w) = delete path (calls w)).
Proof.
  intros Hwf. unfold on_interfaces_removed.
  destruct (bool_decide (Call1 ∈ ifs)) eqn:E; [|by left].
  right. apply bool_decide_eq_true in E. split; [done|].
  rewrite close_call_calls; [reflexivity|]. revert Hwf. by apply wf_frame.
Qed.

Lemma on_properties_changed_calls i ch inv path w :
  wf w ->
  calls (on_properties_changed i ch inv path w) = calls w \/
  (exists p c, i = Call1 /\ path = Some p /\ ch !! "State" = Some "active" /\
     calls w !! p = Some c /\
     calls (on_properties_changed i ch inv path w) =
       <[p := activated c (clock w (clock_reads w)) (next_source w)]> (calls w)) \/
  (exists p, i = Call1 /\ path = Some p /\ ch !! "State" = Some "disconnected" /\
     calls (on_properties_changed i ch inv path w) = delete p (calls w)).
Proof.
  intros Hwf. unfold on_properties_changed.
  destruct (String.eqb i Call1) eqn:Ei; cbn; [|by left].
  apply string_eqb_true in Ei. subst i.
  destruct (ch !! "State") as [s|] eqn:Es; cbn; [|by left].
  destruct (String.eqb s "") eqn:Es0; cbn; [by left|].
  destruct path as [p|]; cbn; [|by left].
  destruct (String.eqb p "") eqn:Ep0; cbn; [by left|].
  destruct (String.eqb s "active") eqn:Ea.
  { apply string_eqb_true in Ea. subst s.
    match goal with |- context [_mark_active p ?w1] => set (w' := w1) end.
    destruct (calls w !! p) as [c|] eqn:Hp.
    - right. left. exists p, c. repeat split; try done.
      apply (mark_active_calls p w' c Hp).
    - left. by rewrite mark_active_untracked. }
  destruct (String.eqb s "disconnected") eqn:Ed; [|by left].
  apply string_eqb_true in Ed. subst s.
  right. right. exists p. repeat split; try done.
  rewrite close_call_calls; [reflexivity|]. revert Hwf. by apply wf_frame.
Qed.

Lemma glib_dispatch_calls sid w : calls (glib_dispatch sid w) = calls w.
Proof.
  unfold glib_dispatch. destruct (sources w !! sid) as [p|]; [|reflexivity].
  pose proof (update_timer_calls p w) as H.
  destruct (_update_timer p w) as [w1 [|]]; exact H.
Qed.

Lemma clicked_answer_calls wid o w :
  calls (clicked answer_sensitive (fun p => answer_call p o) wid w) = calls w.
Proof.
  unfold clicked. destruct (windows w !! wid) as [cw|]; [|reflexivity].
  destruct (_ || _); [reflexivity|]. destruct o; reflexivity.
Qed.

Lemma clicked_hangup_calls wid o w :
  calls (clicked hangup_sensitive (fun p => hangup_call p o) wid w) = calls w.
Proof.
  unfold clicked. destruct (windows w !! wid) as [cw|]; [|reflexivity].
  destruct (_ || _); [reflexivity|]. destruct o; reflexivity.
Qed.

(** One event leaves the entry of [p] alone, creates it as incoming,
    activates it, or removes it. *)
Lemma step_calls_cases e w p :
  wf w ->
  calls (step e w) !! p = calls w !! p \/
  (calls w !! p = None /\ exists cid ifs, e = InterfacesAdded p ifs /\
     calls (step e w) !! p = Some (incoming_entry cid (next_window w))) \/
  (exists c, calls w !! p = Some c /\ activates e p /\
     calls (step e w) !! p =
       Some (activated c (clock w (clock_reads w)) (next_source w))) \/
  (is_Some (calls w !! p) /\ calls (step e w) !! p = None /\ ends_call e p).
Proof.
  intros Hwf. destruct e as [path ifs|path ifs|i ch inv path|sid|wid o|wid o|wid]; cbn.
  - destruct (on_interfaces_added_calls path ifs w) as [->|(Hnone & cid & ->)];
      [by left|].
    destruct (decide (path = p)) as [->|Hne].
    + right. left. split; [done|]. exists cid, ifs. split; [done|].
      apply lookup_insert_eq.
    + left. by apply lookup_insert_ne.
  - destruct (on_interfaces_removed_calls path ifs w Hwf) as [->|(Hin & ->)];
      [by left|].
    destruct (decide (path = p)) as [->|Hne]; [|left; by apply lookup_delete_ne].
    destruct (calls w !! p) as [c|] eqn:Hp.
    + right. right. right. split; [done|]. split; [apply lookup_delete_eq|].
      left. by exists ifs.
    + left. by rewrite lookup_delete_eq.
  - destruct (on_properties_changed_calls i ch inv path w Hwf)
      as [->|[(q & c & -> & -> & Hs & Hq & ->)|(q & -> & -> & Hs & ->)]]; [by left| |].
    + destruct (decide (q = p)) as [->|Hne]; [|left; by apply lookup_insert_ne].
      right. right. left. exists c. split; [done|]. split; [by exists ch, inv|].
      apply lookup_insert_eq.
    + destruct (decide (q = p)) as [->|Hne]; [|left; by apply lookup_delete_ne].
      destruct (calls w !! p) as [c|] eqn:Hp.
      * right. right. right. split; [done|]. split; [apply lookup_delete_eq|].
        right. by exists ch, inv.
      * left. by rewrite lookup_delete_eq.
  - left. by rewrite glib_dispatch_calls.
  - left. by rewrite clicked_answer_calls.
  - left. by rewrite clicked_hangup_calls.
  - by left.
Qed.

Lemma run_app es1 es2 w : run (es1 ++ es2) w = run es2 (run es1 w).
Proof. unfold run. apply foldl_app. Qed.

Lemma wf_tracked_state p w :
  wf w ->
  tracked_state p w = None \/ tracked_state p w = Some "incoming" \/
  tracked_state p w = Some "active".
Proof.
  intros Hwf. unfold tracked_state.
  destruct (calls w !! p) as [c|] eqn:Hp; cbn; [|by left].
  destruct (wf_state w Hwf p c Hp) as [->| ->]; auto.
Qed.

Lemma step_transition e w p :
  wf w -> transition (tracked_state p w) (tracked_state p (step e w)).
Proof.
  intros Hwf. unfold tracked_state at 2.
  destruct (step_calls_cases e w p Hwf)
    as [->|[(Hn & cid & ifs & _ & ->)|[(c & Hc & _ & ->)|((c & Hc) & -> & _)]]].
  - fold (tracked_state p w).
    destruct (wf_tracked_state p w Hwf) as [->|[->| ->]]; constructor.
  - unfold tracked_state. rewrite Hn. cbn. constructor.
  - unfold tracked_state. rewrite Hc. cbn.
    destruct (wf_state w Hwf p c Hc) as [->| ->]; constructor.
  - unfold tracked_state. rewrite Hc. cbn.
    destruct (wf_state w Hwf p c Hc) as [->| ->]; constructor.
Qed.

Lemma step_ends e w p :
  wf w -> tracked_state p w = Some "active" ->
  tracked_state p (step e w) = None -> ends_call e p.
Proof.
  intros Hwf Ha Hn. unfold tracked_state in *.
  destruct (step_calls_cases e w p Hwf)
    as [He|[(Hnone & _)|[(c & Hc & _ & He)|(_ & _ & Hends)]]].
  - rewrite He, Ha in Hn. done.
  - rewrite Hnone in Ha. done.
  - rewrite He in Hn. done.
  - exact Hends.
Qed.

(** Once active, a call is seen incoming again only after it was
    untracked in between. *)
Lemma active_then_incoming es : forall w p,
  wf w -> tracked_state p w = Some "active" ->
  tracked_state p (run es w) = Some "incoming" ->
  exists es1 es2, es = (es1 ++ es2)%list /\ tracked_state p (run es1 w) = None.
Proof.
  induction es as [|e es IH]; intros w p Hwf Ha Hi.
  { cbn in Hi. congruence. }
  pose proof (step_transition e w p Hwf) as Ht. rewrite Ha in Ht.
  inversion Ht as [| | | | |Hs1 Hs2|Hs1 Hs2].
  - destruct (IH (step e w) p (wf_step e w Hwf) (eq_sym Hs2) Hi)
      as (es1 & es2 & -> & Hn).
    exists (e :: es1), es2. split; [reflexivity|exact Hn].
  - exists [e], es. split; [reflexivity|]. cbn. by symmetry.
Qed.

(** C2.  Along every sequence of events a tracked call follows the machine
    Incoming -> Active -> removed, with Incoming -> removed on an early
    removal or disconnect: an active call never becomes incoming again
    while it is tracked, it stops being active only by removal or
    disconnect, and no entry is kept in a state other than incoming or
    active. *)
Theorem call_state_machine w p :
  reachable w ->
  (forall e, transition (tracked_state p w) (tracked_state p (step e w))) /\
  (forall e, tracked_state p w = Some "active" ->
             tracked_state p (step e w) <> Some "active" -> ends_call e p) /\
  (forall es, tracked_state p w = Some "active" ->
              tracked_state p (run es w) = Some "incoming" ->
              exists es1 es2, es = (es1 ++ es2)%list /\
                              tracked_state p (run es1 w) = None) /\
  (forall c, calls w !! p = Some c -> state c = "incoming" \/ state c = "active").
Proof.
  intros Hr. pose proof (reachable_wf w Hr) as Hwf. repeat split_and.
  - intros e. by apply step_transition.
  - intros e Ha Hna. apply (step_ends e w p Hwf Ha).
    pose proof (step_transition e w p Hwf) as Ht. rewrite Ha in Ht.
    inversion Ht as [| | | | |Hs1 Hs2|Hs1 Hs2]; [|reflexivity].
    exfalso. apply Hna. by symmetry.
  - intros es. by apply active_then_incoming.
  - intros c. apply (wf_state w Hwf).
Qed.

Lemma call_state_machine_witness :
  reachable ex_active /\
  transition (tracked_state "/c1" ex_active)
             (tracked_state "/c1" (step (InterfacesRemoved "/c1" [Call1]) ex_active)).
Proof.
  assert (H : reachable ex_active).
  { exists ex_clock, [ex_appeared; ex_activated]. reflexivity. }
  split; [exact H|].
  exact (proj1 (call_state_machine ex_active "/c1" H)
           (InterfacesRemoved "/c1" [Call1])).
Defined.

(** *** Call appeared *)

(** The line [on_interfaces_added] logs. *)
Lemma on_interfaces_added_unfold path ifs props w :
  ifs !! Call1 = Some props -> props <> ∅ ->
  on_interfaces_added path ifs w =
    let reported := default "" (props !! "State") in
    let cid := default "Unknown" (props !! "LineIdentification") in
    let w1 := log ("Incoming call: " +:+ cid +:+ " (state=" +:+ reported
                     +:+ ") path=" +:+ path) w in
    if String.eqb reported "incoming" then _show_window path cid "incoming" w1
    else w1.
Proof.
  intros Hi Hne. unfold on_interfaces_added. rewrite Hi.
  rewrite bool_decide_eq_false_2 by exact Hne. reflexivity.
Qed.

(** C3 (as amended).  For a notification that announces a call ([Call1]
    with properties): when the identifier is tracked and the reported
    state is "incoming", the call's surface is presented again and the
    registry, the windows and the timers are unchanged; when it is tracked
    and the reported state is anything else, nothing but the log line
    happens; when it is untracked and the reported state is "incoming",
    exactly one entry is created, in state incoming, without start time or
    timer, and a new window is shown in incoming mode; when it is untracked
    and the reported state is anything else, no entry is created. *)
Theorem on_call_appeared_contract w path ifs props :
  ifs !! Call1 = Some props -> props <> ∅ ->
  let reported := default "" (props !! "State") in
  let cid := default "Unknown" (props !! "LineIdentification") in
  let w' := on_interfaces_added path ifs w in
  let line := EPrint ("[popup] Incoming call: " +:+ cid +:+ " (state=" +:+ reported
                        +:+ ") path=" +:+ path) in
  (forall c, calls w !! path = Some c -> reported = "incoming" ->
     calls w' = calls w /\ windows w' = windows w /\ sources w' = sources w /\
     new_effects w w' = [line; EPresent (window c)]) /\
  (forall c, calls w !! path = Some c -> reported <> "incoming" ->
     calls w' = calls w /\ windows w' = windows w /\ sources w' = sources w /\
     new_effects w w' = [line]) /\
  (calls w !! path = None -> reported = "incoming" ->
     calls w' = <[path := incoming_entry cid (next_window w)]> (calls w) /\
     size (calls w') = S (size (calls w)) /\
     tracked_state path w' = Some "incoming" /\
     windows w' = <[next_window w := cw_show_incoming (CallWindow_init path cid)]>
                    (windows w) /\
     sources w' = sources w /\
     new_effects w w' = [line; EWindowNew (next_window w) (str_or cid "Unknown");
                         EShowAll (next_window w); EPresent (next_window w)]) /\
  (calls w !! path = None -> reported <> "incoming" ->
     calls w' = calls w /\ windows w' = windows w /\ sources w' = sources w /\
     new_effects w w' = [line]).
Proof.
  intros Hi Hne reported cid w' line.
  set (w1 := log ("Incoming call: " +:+ cid +:+ " (state=" +:+ reported
                    +:+ ") path=" +:+ path) w).
  assert (Hw' : w' = if String.eqb reported "incoming"
                     then _show_window path cid "incoming" w1 else w1).
  { unfold w'. by rewrite (on_interfaces_added_unfold path ifs props w Hi Hne). }
  clearbody w'. repeat split_and.
  - intros c Hc Hr. apply string_eqb_true in Hr. rewrite Hr in Hw'.
    rewrite (show_window_tracked path cid "incoming" w1 c Hc) in Hw'. subst w'.
    repeat split; try reflexivity.
    apply new_effects_app. cbn. by rewrite <- app_assoc.
  - intros c Hc Hr. apply string_eqb_false in Hr. rewrite Hr in Hw'. subst w'.
    repeat split; try reflexivity. by apply new_effects_app.
  - intros Hc Hr. apply string_eqb_true in Hr. rewrite Hr in Hw'.
    rewrite (show_window_incoming path cid w1 Hc) in Hw'. subst w'. cbn.
    repeat split; try reflexivity.
    + by apply map_size_insert_None.
    + unfold tracked_state. cbn. by rewrite lookup_insert_eq.
    + apply new_effects_app. cbn. by rewrite <- app_assoc.
  - intros Hc Hr. apply string_eqb_false in Hr. rewrite Hr in Hw'. subst w'.
    repeat split; try reflexivity. by apply new_effects_app.
Qed.

Lemma ex_props_nonempty : ex_props <> ∅.
Proof.
  intros H. apply (f_equal (fun m => m !! "State")) in H.
  vm_compute in H. discriminate H.
Qed.

Lemma ex_props_active_nonempty : ex_props_active <> ∅.
Proof.
  intros H. apply (f_equal (fun m => m !! "State")) in H.
  vm_compute in H. discriminate H.
Qed.

Lemma on_call_appeared_contract_witness :
  new_effects ex_incoming (on_interfaces_added "/c1" ex_interfaces ex_incoming) =
    [EPrint "[popup] Incoming call: Alice (state=incoming) path=/c1"; EPresent 0].
Proof.
  exact (proj2 (proj2 (proj2
    (proj1 (on_call_appeared_contract ex_incoming "/c1" ex_interfaces ex_props
              eq_refl ex_props_nonempty)
           (incoming_entry "Alice" 0) eq_refl eq_refl)))).
Defined.

(** The claim as stated fails: [/c1] is tracked, the object is announced
    again in state "active", and the window is not presented. *)
Lemma on_call_appeared_tracked_not_presented :
  calls ex_incoming !! "/c1" = Some (incoming_entry "Alice" 0) /\
  ex_interfaces_active !! Call1 = Some ex_props_active /\
  new_effects ex_incoming (on_interfaces_added "/c1" ex_interfaces_active ex_incoming) =
    [EPrint "[popup] Incoming call: Alice (state=active) path=/c1"] /\
  ~ EPresent 0 ∈
      new_effects ex_incoming (on_interfaces_added "/c1" ex_interfaces_active ex_incoming).
Proof.
  assert (He : new_effects ex_incoming
                 (on_interfaces_added "/c1" ex_interfaces_active ex_incoming) =
               [EPrint "[popup] Incoming call: Alice (state=active) path=/c1"])
    by (vm_compute; reflexivity).
  split; [vm_compute; reflexivity|]. split; [vm_compute; reflexivity|].
  split; [exact He|]. rewrite He. intros Hin.
  apply list_elem_of_singleton in Hin. discriminate Hin.
Qed.

(** *** State changed *)

Lemma on_properties_changed_unfold ch inv p s w :
  ch !! "State" = Some s -> s <> "" -> p <> "" ->
  on_properties_changed Call1 ch inv (Some p) w =
    let w1 := log ("State changed: " +:+ p +:+ " -> " +:+ s) w in
    if String.eqb s "active" then _mark_active p w1
    else if String.eqb s "disconnected" then _close_call p w1
    else w1.
Proof.
  intros Hs Hs0 Hp0. unfold on_properties_changed. rewrite Hs. cbn.
  apply string_eqb_false in Hs0, Hp0. rewrite Hs0, Hp0. reflexivity.
Qed.

Lemma reachable_ex_incoming : reachable ex_incoming.
Proof. exists ex_clock, [ex_appeared]. reflexivity. Qed.

Lemma reachable_ex_active : reachable ex_active.
Proof. exists ex_clock, [ex_appeared; ex_activated]. reflexivity. Qed.

(** C4.  For a tracked call, a state change to "active" stores
    [start_time = now], puts the window in active mode, removes the
    entry's previous timer, if any, before it adds the new 1-second
    timeout, and leaves exactly one live timer for the call; and no event
    other than a state change to "active" modifies the start time of an
    entry. *)
Theorem state_changed_active w p c ch inv :
  reachable w -> calls w !! p = Some c -> p <> "" ->
  ch !! "State" = Some "active" ->
  let w' := on_properties_changed Call1 ch inv (Some p) w in
  calls w' = <[p := activated c (clock w (clock_reads w)) (next_source w)]> (calls w) /\
  (exists cw, windows w' !! window c = Some cw /\
     state_label cw = "Call in progress" /\
     answer_sensitive cw = false /\ hangup_sensitive cw = true) /\
  new_effects w w' =
    ([EPrint ("[popup] State changed: " +:+ p +:+ " -> active");
      EPresent (window c)] ++
     match timer_id c with Some old => [ESourceRemove old] | None => [] end ++
     [ETimeoutAdd (next_source w) p])%list /\
  (forall sid, sources w' !! sid = Some p <-> sid = next_source w) /\
  (forall old, timer_id c = Some old ->
     sources w !! old = Some p /\ sources w' !! old = None) /\
  (forall e q c1 c2, calls w !! q = Some c1 -> calls (step e w) !! q = Some c2 ->
     start_time c2 <> start_time c1 -> activates e q).
Proof.
  intros Hr Hc Hp0 Hs w'. pose proof (reachable_wf w Hr) as Hwf.
  set (w1 := log ("State changed: " +:+ p +:+ " -> active") w).
  assert (Hw' : w' = _mark_active p w1).
  { unfold w'. by rewrite (on_properties_changed_unfold ch inv p "active" w Hs). }
  clearbody w'. subst w'.
  assert (Hold : forall old, timer_id c = Some old -> sources w !! old = Some p).
  { intros old Ho. apply (wf_sources w Hwf). eauto. }
  assert (Hfresh : forall sid, is_Some (sources w !! sid) -> sid <> next_source w).
  { intros sid Hsome. pose proof (wf_source_fresh w Hwf sid Hsome). lia. }
  repeat split_and.
  - apply (mark_active_calls p w1 c Hc).
  - destruct (wf_window w Hwf p c Hc) as (cw & Hcw & _).
    rewrite (mark_active_windows p w1 c Hc). cbn.
    rewrite !lookup_alter_eq, Hcw. cbn. eexists. split; [reflexivity|]. done.
  - apply new_effects_app. rewrite (mark_active_trace p w1 c Hc). cbn.
    rewrite <- app_assoc. reflexivity.
  - intros sid. rewrite (mark_active_sources p w1 c Hc). cbn. split.
    + intros Hsid. apply lookup_insert_Some in Hsid.
      destruct Hsid as [[<- _]|[Hne Hsid]]; [done|]. exfalso.
      assert (sources w !! sid = Some p /\ timer_id c <> Some sid) as [Hsrc Hnot].
      { destruct (timer_id c) as [old|] eqn:Htc.
        - apply lookup_delete_Some in Hsid. destruct Hsid as [? ?].
          split; [done|congruence].
        - done. }
      apply (wf_sources w Hwf) in Hsrc. destruct Hsrc as (c0 & Hc0 & Ht0).
      congruence.
    + intros ->. apply lookup_insert_eq.
  - intros old Ho. split; [by apply Hold|].
    rewrite (mark_active_sources p w1 c Hc). cbn. rewrite Ho.
    rewrite lookup_insert_ne; [apply lookup_delete_eq|].
    intros He. apply (Hfresh old); [|done]. rewrite (Hold old Ho). eauto.
  - intros e q c1 c2 H1 H2 Hdiff.
    destruct (step_calls_cases e w q Hwf)
      as [He|[(Hn & _)|[(c0 & _ & Hact & _)|(_ & Hn & _)]]]; [| |exact Hact|].
    + rewrite He in H2. congruence.
    + congruence.
    + congruence.
Qed.

Lemma state_changed_active_witness :
  new_effects ex_incoming
    (on_properties_changed Call1 {[ "State" := "active" ]} [] (Some "/c1") ex_incoming) =
  [EPrint "[popup] State changed: /c1 -> active"; EPresent 0; ETimeoutAdd 1 "/c1"].
Proof.
  assert (Hc : calls ex_incoming !! "/c1" = Some (incoming_entry "Alice" 0))
    by (vm_compute; reflexivity).
  assert (Hp : "/c1" <> "") by discriminate.
  assert (Hs : ({[ "State" := "active" ]} : gmap string string) !! "State" = Some "active")
    by (vm_compute; reflexivity).
  exact (proj1 (proj2 (proj2
    (state_changed_active ex_incoming "/c1" (incoming_entry "Alice" 0)
       {[ "State" := "active" ]} [] reachable_ex_incoming Hc Hp Hs)))).
Defined.

(** *** Call removed *)

(** Closing a tracked call of a well-formed world, after a log line. *)
Lemma close_call_after_log msg p w c :
  wf w -> calls w !! p = Some c ->
  exists cw, windows w !! window c = Some cw /\ destroyed cw = false /\
    calls (_close_call p (log msg w)) = delete p (calls w) /\
    sources (_close_call p (log msg w)) =
      match timer_id c with
      | Some sid => delete sid (sources w)
      | None => sources w
      end /\
    windows (_close_call p (log msg w)) =
      <[window c := cw_set_destroyed cw]> (windows w) /\
    trace (_close_call p (log msg w)) =
      (trace w ++ [EPrint ("[popup] " +:+ msg)] ++
       match timer_id c with Some sid => [ESourceRemove sid] | None => [] end ++
       [EDestroy (window c); EPrint ("[popup] Closed call UI for " +:+ p)])%list.
Proof.
  intros Hwf Hc.
  destruct (wf_window w Hwf p c Hc) as (cw & Hcw & Hpath & Hd & _).
  exists cw. split; [done|]. split; [done|].
  rewrite (close_call_tracked p (log msg w) c cw Hc Hcw Hd Hpath).
  unfold remove_timer. destruct (timer_id c) as [sid|]; cbn;
    rewrite <- ?app_assoc; done.
Qed.

(** C5.  For a tracked call, the removal notification cancels the call's
    timer, destroys its window and removes its entry; a state change to
    "disconnected" does the same cleanup and, like it, leaves the registry
    without the identifier. *)
Theorem call_removed_cleanup w p c ifs ch inv :
  reachable w -> calls w !! p = Some c -> p <> "" ->
  Call1 ∈ ifs -> ch !! "State" = Some "disconnected" ->
  let wr := on_interfaces_removed p ifs w in
  let wd := on_properties_changed Call1 ch inv (Some p) w in
  let cleanup :=
    (match timer_id c with Some sid => [ESourceRemove sid] | None => [] end ++
     [EDestroy (window c); EPrint ("[popup] Closed call UI for " +:+ p)])%list in
  calls wr = delete p (calls w) /\ calls wr !! p = None /\
  sources wr = match timer_id c with
               | Some sid => delete sid (sources w)
               | None => sources w
               end /\
  (forall sid, sources wr !! sid <> Some p) /\
  (exists cw, windows w !! window c = Some cw /\ destroyed cw = false /\
     windows wr = <[window c := cw_set_destroyed cw]> (windows w)) /\
  new_effects w wr = (EPrint ("[popup] Call removed: " +:+ p) :: cleanup) /\
  calls wd = calls wr /\ calls wd !! p = None /\
  sources wd = sources wr /\ windows wd = windows wr /\
  new_effects w wd =
    (EPrint ("[popup] State changed: " +:+ p +:+ " -> disconnected") :: cleanup).
Proof.
  intros Hr Hc Hp0 Hin Hs wr wd cleanup. pose proof (reachable_wf w Hr) as Hwf.
  assert (Hwr : wr = _close_call p (log ("Call removed: " +:+ p) w)).
  { unfold wr, on_interfaces_removed. by rewrite bool_decide_eq_true_2. }
  assert (Hwd : wd = _close_call p
                       (log ("State changed: " +:+ p +:+ " -> disconnected") w)).
  { unfold wd. by rewrite (on_properties_changed_unfold ch inv p "disconnected" w Hs). }
  assert (Hwfr : wf wr).
  { apply (wf_step (InterfacesRemoved p ifs) w Hwf). }
  destruct (close_call_after_log ("Call removed: " +:+ p) p w c Hwf Hc)
    as (cw & Hcw & Hd & Hr1 & Hr2 & Hr3 & Hr4).
  destruct (close_call_after_log ("State changed: " +:+ p +:+ " -> disconnected")
              p w c Hwf Hc)
    as (cw' & Hcw' & _ & Hd1 & Hd2 & Hd3 & Hd4).
  assert (cw' = cw) by congruence. subst cw'.
  rewrite <- Hwr in Hr1, Hr2, Hr3, Hr4. rewrite <- Hwd in Hd1, Hd2, Hd3, Hd4.
  clearbody wr wd. repeat split_and.
  - exact Hr1.
  - rewrite Hr1. apply lookup_delete_eq.
  - exact Hr2.
  - intros sid Hsid. apply (wf_sources wr Hwfr) in Hsid.
    destruct Hsid as (c0 & Hc0 & _). rewrite Hr1, lookup_delete_eq in Hc0. done.
  - exists cw. done.
  - by apply new_effects_app.
  - congruence.
  - rewrite Hd1. apply lookup_delete_eq.
  - congruence.
  - congruence.
  - by apply new_effects_app.
Qed.

Lemma call_removed_cleanup_witness :
  new_effects ex_active (on_interfaces_removed "/c1" [Call1] ex_active) =
    [EPrint "[popup] Call removed: /c1"; ESourceRemove 1; EDestroy 0;
     EPrint "[popup] Closed call UI for /c1"] /\
  calls (on_properties_changed Call1 {[ "State" := "disconnected" ]} [] (Some "/c1")
           ex_active) !! "/c1" = None.
Proof.
  assert (Hc : calls ex_active !! "/c1" =
               Some (activated (incoming_entry "Alice" 0) (py_float_of_Z 0) 1%positive))
    by (vm_compute; reflexivity).
  assert (Hp : "/c1" <> "") by discriminate.
  assert (Hin : Call1 ∈ [Call1]) by (apply list_elem_of_here).
  assert (Hs : ({[ "State" := "disconnected" ]} : gmap string string) !! "State" =
               Some "disconnected") by (vm_compute; reflexivity).
  pose proof (call_removed_cleanup ex_active "/c1"
                (activated (incoming_entry "Alice" 0) (py_float_of_Z 0) 1%positive)
                [Call1] {[ "State" := "disconnected" ]} []
                reachable_ex_active Hc Hp Hin Hs)
    as (_ & _ & _ & _ & _ & He & _ & Hn & _).
  split; [exact He | exact Hn].
Defined.

(** *** Notifications that change nothing *)

(** An identifier no "appeared" notification has named is not tracked. *)
Lemma never_appeared_untracked clock p es :
  (forall ifs, InterfacesAdded p ifs ∉ es) ->
  calls (run es (main clock)) !! p = None.
Proof.
  induction es as [|e es IH] using rev_ind; intros Hnot; [reflexivity|].
  rewrite run_app. cbn.
  assert (Hes : forall ifs, InterfacesAdded p ifs ∉ es).
  { intros ifs Hin. apply (Hnot ifs). apply elem_of_app. by left. }
  specialize (IH Hes).
  assert (Hwf : wf (run es (main clock))) by apply wf_run, wf_main.
  destruct (step_calls_cases e (run es (main clock)) p Hwf)
    as [He|[(_ & cid & ifs & -> & _)|[(c & Hc & _)|([c Hc] & _)]]].
  - by rewrite He.
  - exfalso. apply (Hnot ifs). apply elem_of_app. right. apply list_elem_of_here.
  - congruence.
  - congruence.
Qed.

Lemma on_properties_changed_untracked i ch inv p w :
  calls w !! p = None ->
  calls (on_properties_changed i ch inv (Some p) w) = calls w /\
  windows (on_properties_changed i ch inv (Some p) w) = windows w /\
  sources (on_properties_changed i ch inv (Some p) w) = sources w.
Proof.
  intros Hp. unfold on_properties_changed.
  destruct (negb (String.eqb i Call1)); [done|].
  destruct (negb (truthy_str (ch !! "State"))); [done|].
  cbn. destruct (negb (negb (String.eqb p ""))); [done|].
  destruct (String.eqb _ "active").
  { by rewrite mark_active_untracked. }
  destruct (String.eqb _ "disconnected"); [|done].
  by rewrite close_call_untracked.
Qed.

Lemma on_interfaces_removed_untracked p ifs w :
  calls w !! p = None ->
  calls (on_interfaces_removed p ifs w) = calls w /\
  windows (on_interfaces_removed p ifs w) = windows w /\
  sources (on_interfaces_removed p ifs w) = sources w.
Proof.
  intros Hp. unfold on_interfaces_removed. destruct (bool_decide _); [|done].
  by rewrite close_call_untracked.
Qed.

(** C6.  For an identifier that no "appeared" notification has named, a
    state change and a removal leave the registry unchanged (and the
    windows and timers with it); and a notification that lacks a required
    field leaves everything unchanged: a property change for another
    interface, without a State value or with an empty one, or without a
    path, and a removal that does not list the Call1 interface. *)
Theorem untracked_and_malformed_noop clock es p :
  (forall ifs, InterfacesAdded p ifs ∉ es) ->
  let w := run es (main clock) in
  calls w !! p = None /\
  (forall i ch inv,
     calls (on_properties_changed i ch inv (Some p) w) = calls w /\
     windows (on_properties_changed i ch inv (Some p) w) = windows w /\
     sources (on_properties_changed i ch inv (Some p) w) = sources w) /\
  (forall ifs,
     calls (on_interfaces_removed p ifs w) = calls w /\
     windows (on_interfaces_removed p ifs w) = windows w /\
     sources (on_interfaces_removed p ifs w) = sources w) /\
  (forall w0 i ch inv path, i <> Call1 ->
     on_properties_changed i ch inv path w0 = w0) /\
  (forall w0 i ch inv path, ch !! "State" = None \/ ch !! "State" = Some "" ->
     on_properties_changed i ch inv path w0 = w0) /\
  (forall w0 i ch inv path, path = None \/ path = Some "" ->
     on_properties_changed i ch inv path w0 = w0) /\
  (forall w0 path ifs, Call1 ∉ ifs -> on_interfaces_removed path ifs w0 = w0).
Proof.
  intros Hnot w.
  assert (Hp : calls w !! p = None) by (by apply never_appeared_untracked).
  repeat split_and.
  - exact Hp.
  - intros. by apply on_properties_changed_untracked.
  - intros. by apply on_interfaces_removed_untracked.
  - intros w0 i ch inv path Hi. unfold on_properties_changed.
    apply string_eqb_false in Hi. by rewrite Hi.
  - intros w0 i ch inv path Hs. unfold on_properties_changed.
    destruct (negb (String.eqb i Call1)); [done|].
    destruct Hs as [-> | ->]; reflexivity.
  - intros w0 i ch inv path Hpath. unfold on_properties_changed.
    destruct (negb (String.eqb i Call1)); [done|].
    destruct (negb (truthy_str (ch !! "State"))); [done|].
    destruct Hpath as [-> | ->]; reflexivity.
  - intros w0 path ifs Hin. unfold on_interfaces_removed.
    by rewrite bool_decide_eq_false_2.
Qed.

Lemma untracked_and_malformed_noop_witness :
  calls (run [ex_appeared; ex_activated] (main ex_clock)) !! "/c2" = None /\
  calls (on_interfaces_removed "/c2" [Call1]
           (run [ex_appeared; ex_activated] (main ex_clock))) =
  calls (run [ex_appeared; ex_activated] (main ex_clock)).
Proof.
  assert (H : forall ifs, InterfacesAdded "/c2" ifs ∉ [ex_appeared; ex_activated]).
  { intros ifs Hin. apply elem_of_cons in Hin. destruct Hin as [Hin|Hin].
    - discriminate Hin.
    - apply list_elem_of_singleton in Hin. discriminate Hin. }
  pose proof (untracked_and_malformed_noop ex_clock [ex_appeared; ex_activated] "/c2" H)
    as (Hn & _ & Hr & _).
  split; [exact Hn | exact (proj1 (Hr [Call1]))].
Defined.

(** *** The timer tick *)

Lemma update_timer_continues p w c st :
  calls w !! p = Some c -> state c = "active" -> start_time c = Some st ->
  _update_timer p w =
    (update_timer_label (window c)
       (py_int (py_float_sub (clock w (clock_reads w)) st)) (time_monotonic w).2, true).
Proof.
  intros Hc Ha Hs. unfold _update_timer. rewrite Hc, Ha, Hs. reflexivity.
Qed.

(** C7.  The tick returns the continue signal exactly when the call is
    tracked, active and has a start time.  When it returns false it changes
    nothing (no label update, no registry change), and GLib drops the
    source.  When it continues, the registry is unchanged and the timer
    label of the call's window shows mm:ss of [now - start_time] in whole
    seconds, floored at zero, where [now - start_time] is the binary64
    difference of the two readings and is taken to be a number (on an
    infinity or a NaN [int] raises).  With start 0.1 and now 65.1 the
    label is 01:05. *)
Theorem tick_contract w p :
  ((_update_timer p w).2 = true <->
     exists c, calls w !! p = Some c /\ state c = "active" /\ start_time c <> None) /\
  ((_update_timer p w).2 = false -> (_update_timer p w).1 = w) /\
  (forall sid, sources w !! sid = Some p -> (_update_timer p w).2 = false ->
     glib_dispatch sid w = set_sources (delete sid) w) /\
  (forall c st, calls w !! p = Some c -> state c = "active" ->
     start_time c = Some st ->
     let d := py_float_sub (clock w (clock_reads w)) st in
     float_is_finite d = true ->
     let elapsed := Z.max (Qfloor (SF2Q d)) 0 in
     let text := py_format_02d (elapsed / 60) +:+ ":" +:+
                 py_format_02d (elapsed mod 60) in
     (_update_timer p w).2 = true /\
     calls (_update_timer p w).1 = calls w /\
     sources (_update_timer p w).1 = sources w /\
     windows (_update_timer p w).1 =
       alter (cw_set_timer_label text) (window c) (windows w) /\
     (reachable w -> exists cw, windows (_update_timer p w).1 !! window c = Some cw /\
                                timer_label cw = text)).
Proof.
  repeat split_and.
  - unfold _update_timer. split.
    + destruct (calls w !! p) as [c|]; [|done].
      destruct (String.eqb (state c) "active") eqn:Ea; cbn; [|done].
      apply string_eqb_true in Ea.
      destruct (start_time c) eqn:Es; [|done]. intros _. exists c. by rewrite Es.
    + intros (c & -> & -> & Hs). cbn. destruct (start_time c); done.
  - unfold _update_timer.
    destruct (calls w !! p) as [c|]; [|done].
    destruct (negb _); [done|]. destruct (start_time c); done.
  - intros sid Hsid Hf. unfold glib_dispatch. rewrite Hsid.
    assert (Hw : (_update_timer p w).1 = w).
    { revert Hf. unfold _update_timer.
      destruct (calls w !! p) as [c|]; [|done].
      destruct (negb _); [done|]. destruct (start_time c); done. }
    destruct (_update_timer p w) as [w1 b]. cbn in Hf, Hw. by subst.
  - intros c st Hc Ha Hs d Hfin elapsed text.
    rewrite (update_timer_continues p w c st Hc Ha Hs). cbn.
    assert (Ht : timer_text (py_int d) = text).
    { unfold timer_text, text, elapsed. cbv zeta.
      by rewrite (py_int_floor d Hfin). }
    fold d. rewrite Ht. repeat split; try reflexivity.
    intros Hr. destruct (wf_window w (reachable_wf w Hr) p c Hc) as (cw & Hcw & _).
    exists (cw_set_timer_label text cw). rewrite lookup_alter_eq, Hcw. done.
Qed.

Lemma reachable_ex_active_tenths : reachable ex_active_tenths.
Proof. exists ex_clock_tenths, [ex_appeared; ex_activated]. reflexivity. Qed.

Lemma tick_contract_witness :
  exists cw, windows (_update_timer "/c1" ex_active_tenths).1 !! 0 = Some cw /\
             timer_label cw = "01:05".
Proof.
  pose (st := py_float_div (py_float_of_Z 1) (py_float_of_Z 10)).
  assert (Hc : calls ex_active_tenths !! "/c1" =
               Some (activated (incoming_entry "Alice" 0) st 1%positive))
    by (vm_compute; reflexivity).
  assert (Hfin : float_is_finite
                   (py_float_sub
                      (clock ex_active_tenths (clock_reads ex_active_tenths)) st) = true)
    by (vm_compute; reflexivity).
  pose proof (proj2 (proj2 (proj2 (tick_contract ex_active_tenths "/c1")))
                (activated (incoming_entry "Alice" 0) st 1%positive) st
                Hc eq_refl eq_refl Hfin) as (_ & _ & _ & _ & H).
  destruct (H reachable_ex_active_tenths) as (cw & Hcw & Hl).
  exists cw. split; [exact Hcw|]. rewrite Hl. vm_compute. reflexivity.
Defined.

(** *** Call control *)

(** C8.  [answer_call] and [hangup_call] make exactly one call of the
    remote method and return normally whatever its outcome; they change
    neither the registry nor the windows nor the timers; a failure is
    logged, with its traceback, and is not retried. *)
Theorem call_control_contract w p o :
  let failure (what : string) :=
    match o with
    | Succeeds => []
    | Fails exc => [EPrint ("[popup] " +:+ what +:+ " failed: " +:+ exc);
                    ETraceback exc]
    end in
  (answer_call p o w).2 = Returns /\
  calls (answer_call p o w).1 = calls w /\
  windows (answer_call p o w).1 = windows w /\
  sources (answer_call p o w).1 = sources w /\
  new_effects w (answer_call p o w).1 =
    ([EPrint ("[popup] Answering " +:+ p); EDBusCall p "Answer"] ++ failure "Answer")%list /\
  (hangup_call p o w).2 = Returns /\
  calls (hangup_call p o w).1 = calls w /\
  windows (hangup_call p o w).1 = windows w /\
  sources (hangup_call p o w).1 = sources w /\
  new_effects w (hangup_call p o w).1 =
    ([EPrint ("[popup] Hanging up " +:+ p); EDBusCall p "Hangup"] ++ failure "Hangup")%list.
Proof.
  destruct o as [|exc]; cbn; repeat split;
    apply new_effects_app; cbn; rewrite <- ?app_assoc; reflexivity.
Qed.

(** *** The timer label *)

Lemma string_of_uint_nonempty d : d <> Decimal.Nil -> NilZero.string_of_uint d <> "".
Proof. destruct d; cbn; congruence. Qed.

Lemma py_str_nonempty z : py_str z <> "".
Proof.
  unfold py_str. destruct z as [|p|p]; cbn.
  - discriminate.
  - apply string_of_uint_nonempty, Unsigned.to_uint_nonnil.
  - discriminate.
Qed.

(** [py_str] writes the decimal numeral of its argument. *)
Lemma py_str_decimal z : Z.of_int <$> NilZero.int_of_string (py_str z) = Some z.
Proof.
  unfold py_str. rewrite NilZero.isi.
  - change (Some (Z.of_int (Z.to_int z)) = Some z). by rewrite DecimalZ.of_to.
  - destruct z as [|p|p]; cbn; [discriminate| |discriminate].
    intros [= H]. by apply (Unsigned.to_uint_nonnil p).
  - destruct z as [|p|p]; cbn; [discriminate|discriminate|].
    intros [= H]. by apply (Unsigned.to_uint_nonnil p).
Qed.

(** The format [02d] is left padding with zeros to two characters. *)
Lemma py_format_02d_zero_pad z : py_format_02d z = zero_pad 2 (py_str z).
Proof.
  unfold py_format_02d, zero_pad. cbv zeta.
  pose proof (py_str_nonempty z) as Hne.
  destruct (py_str z) as [|a [|b s]]; [done| |]; reflexivity.
Qed.

Lemma py_format_02d_below_60 :
  forallb (fun k => Nat.eqb (String.length (py_format_02d (Z.of_nat k))) 2)
          (seq 0 60) = true.
Proof. vm_compute. reflexivity. Qed.

Lemma seconds_field_length m :
  (0 <= m)%Z -> String.length (py_format_02d (m mod 60)) = 2.
Proof.
  intros Hm. pose proof py_format_02d_below_60 as H.
  rewrite forallb_forall in H.
  specialize (H (Z.to_nat (m mod 60))).
  pose proof (Z.mod_pos_bound m 60 eq_refl) as Hb.
  rewrite Z2Nat.id in H by lia.
  apply Nat.eqb_eq, H, in_seq. lia.
Qed.

(** C9.  The timer label is mm:ss with zero padding: for every integer
    number of seconds the text is the decimal numeral of
    floor(max(s,0)/60), a colon, and the decimal numeral of max(s,0) mod 60,
    each padded on the left with zeros to two characters; the seconds
    field is exactly two characters long; [update_timer_label] writes this
    text; 65 seconds is shown as "01:05". *)
Theorem timer_label_format seconds :
  timer_text seconds = spec_mm_ss seconds /\
  (forall z, Z.of_int <$> NilZero.int_of_string (py_str z) = Some z) /\
  String.length (zero_pad 2 (py_str (Z.max seconds 0 mod 60))) = 2 /\
  2 <= String.length (zero_pad 2 (py_str (Z.max seconds 0 / 60))) /\
  (forall wid w,
     windows (update_timer_label wid seconds w) =
       alter (cw_set_timer_label (spec_mm_ss seconds)) wid (windows w)) /\
  timer_text 65 = "01:05".
Proof.
  assert (Ht : timer_text seconds = spec_mm_ss seconds).
  { unfold timer_text, spec_mm_ss. cbv zeta.
    by rewrite !py_format_02d_zero_pad. }
  repeat split_and.
  - exact Ht.
  - apply py_str_decimal.
  - rewrite <- py_format_02d_zero_pad. apply seconds_field_length. lia.
  - unfold zero_pad. pose proof (py_str_nonempty (Z.max seconds 0 / 60)) as Hne.
    destruct (py_str _) as [|a [|b s]]; [done| |];
      cbv [zeros String.append String.length Nat.sub]; lia.
  - intros wid w. unfold update_timer_label. cbn. by rewrite Ht.
  - reflexivity.
Qed.

(** *** The caller identification *)

(** C10.  The stored and the displayed caller identification are never
    empty.  When a call appears whose LineIdentification is absent or
    empty, the new entry's [caller_id] is "Unknown" and its window shows
    "From: Unknown"; and in every reachable state every entry has a
    non-empty [caller_id], which is the text its window shows. *)
Theorem caller_id_never_empty w path ifs props :
  ifs !! Call1 = Some props -> props !! "State" = Some "incoming" ->
  props !! "LineIdentification" = None \/ props !! "LineIdentification" = Some "" ->
  calls w !! path = None ->
  let w' := on_interfaces_added path ifs w in
  calls w' !! path =
    Some {| caller_id := "Unknown"; state := "incoming"; window := next_window w;
            start_time := None; timer_id := None |} /\
  (exists cw, windows w' !! next_window w = Some cw /\
              caller_label cw = "From: Unknown") /\
  EWindowNew (next_window w) "Unknown" ∈ new_effects w w' /\
  (forall w0 p c, reachable w0 -> calls w0 !! p = Some c ->
     caller_id c <> "" /\
     exists cw, windows w0 !! window c = Some cw /\
                caller_label cw = "From: " +:+ caller_id c).
Proof.
  intros Hi Hs Hl Hp w'.
  assert (Hne : props <> ∅).
  { intros ->. by rewrite lookup_empty in Hs. }
  set (cid := default "Unknown" (props !! "LineIdentification")).
  assert (Hcid : str_or cid "Unknown" = "Unknown").
  { unfold cid. destruct Hl as [-> | ->]; reflexivity. }
  set (w1 := log ("Incoming call: " +:+ cid +:+ " (state=incoming) path=" +:+ path) w).
  assert (Hw' : w' = _show_window path cid "incoming" w1).
  { unfold w'. rewrite (on_interfaces_added_unfold path ifs props w Hi Hne).
    rewrite Hs. reflexivity. }
  rewrite (show_window_incoming path cid w1 Hp) in Hw'.
  clearbody w'. subst w'. cbn. repeat split_and.
  - rewrite lookup_insert_eq. unfold incoming_entry. by rewrite Hcid.
  - rewrite lookup_insert_eq. eexists. split; [reflexivity|].
    cbn. by rewrite Hcid.
  - unfold new_effects. cbn. rewrite <- app_assoc, drop_app_length.
    rewrite Hcid. apply elem_of_cons. right. apply list_elem_of_here.
  - intros w0 p c Hr Hc. pose proof (reachable_wf w0 Hr) as Hwf. split.
    + by apply (wf_caller w0 Hwf p c).
    + destruct (wf_window w0 Hwf p c Hc) as (cw & Hcw & _ & _ & Hlab). eauto.
Qed.

Lemma caller_id_never_empty_witness :
  calls (on_interfaces_added "/c2" ex_interfaces_anonymous ex_active) !! "/c2" =
    Some {| caller_id := "Unknown"; state := "incoming"; window := 1;
            start_time := None; timer_id := None |}.
Proof.
  assert (Hi : ex_interfaces_anonymous !! Call1 = Some ex_props_anonymous)
    by (vm_compute; reflexivity).
  assert (Hs : ex_props_anonymous !! "State" = Some "incoming")
    by (vm_compute; reflexivity).
  assert (Hl : ex_props_anonymous !! "LineIdentification" = None \/
               ex_props_anonymous !! "LineIdentification" = Some "")
    by (right; vm_compute; reflexivity).
  assert (Hp : calls ex_active !! "/c2" = None) by (vm_compute; reflexivity).
  pose proof (caller_id_never_empty ex_active "/c2" ex_interfaces_anonymous
                ex_props_anonymous Hi Hs Hl Hp) as (H & _).
  assert (Hn : next_window ex_active = 1) by (vm_compute; reflexivity).
  rewrite Hn in H. exact H.
Defined.

(** * Further properties *)

(** *** Invariants of the event loop *)

(** In a well-formed world the callback of a live source continues. *)
Lemma live_source_continues sid p w :
  wf w -> sources w !! sid = Some p -> (_update_timer p w).2 = true.
Proof.
  intros Hwf Hsid. apply (wf_sources w Hwf) in Hsid.
  destruct Hsid as (c & Hc & Htc).
  assert (Hact : state c = "active") by (apply (wf_timer w Hwf p c Hc); congruence).
  assert (Hst : start_time c <> None) by (by apply (wf_start w Hwf p c Hc)).
  destruct (start_time c) as [st|] eqn:Es; [|done].
  by rewrite (update_timer_continues p w c st Hc Hact Es).
Qed.

(** A property kept by the five operations the handlers are made of is
    kept by every event. *)
Lemma step_invariant (P : world -> Prop) :
  (forall x w, P w -> P (emit x w)) ->
  (forall p w, wf w -> P w -> P (_update_timer p w).1) ->
  (forall p w, wf w -> P w -> P (_mark_active p w)) ->
  (forall p w, wf w -> P w -> P (_close_call p w)) ->
  (forall p cid w, wf w -> P w -> P (_show_window p cid "incoming" w)) ->
  forall e w, wf w -> P w -> P (step e w).
Proof.
  intros Hemit Htick Hmark Hclose Hshow e w Hwf HP.
  assert (Hlog : forall msg, wf (log msg w) /\ P (log msg w)).
  { intros msg. split; [revert Hwf; by apply wf_frame | by apply Hemit]. }
  destruct e as [path ifs|path ifs|i ch inv path|sid|wid o|wid o|wid]; cbn.
  - unfold on_interfaces_added.
    destruct (ifs !! Call1) as [props|]; [|done].
    destruct (bool_decide _); [done|].
    destruct (String.eqb _ "incoming"); [|apply Hlog].
    apply Hshow; apply Hlog.
  - unfold on_interfaces_removed. destruct (bool_decide _); [|done].
    apply Hclose; apply Hlog.
  - unfold on_properties_changed.
    destruct (negb (String.eqb i Call1)); [done|].
    destruct (negb (truthy_str (ch !! "State"))); [done|].
    destruct (negb (truthy_str path)); [done|].
    destruct (String.eqb _ "active"); [apply Hmark; apply Hlog|].
    destruct (String.eqb _ "disconnected"); [apply Hclose; apply Hlog|].
    apply Hlog.
  - unfold glib_dispatch. destruct (sources w !! sid) as [p|] eqn:Hsid; [|done].
    pose proof (live_source_continues sid p w Hwf Hsid) as Hc.
    pose proof (Htick p w Hwf HP) as HP'.
    destruct (_update_timer p w) as [w1 b]. cbn in Hc. subst b. exact HP'.
  - unfold clicked. destruct (windows w !! wid) as [cw|]; [|done].
    destruct (_ || _); [done|]. unfold answer_call, dbus_call, log.
    destruct o; cbn; auto.
  - unfold clicked. destruct (windows w !! wid) as [cw|]; [|done].
    destruct (_ || _); [done|]. unfold hangup_call, dbus_call, log.
    destruct o; cbn; auto.
  - done.
Qed.

Lemma run_invariant (P : world -> Prop) :
  (forall e w, wf w -> P w -> P (step e w)) ->
  forall es w, wf w -> P w -> P (run es w).
Proof.
  intros Hstep es. induction es as [|e es IH]; intros w Hwf HP; [exact HP|].
  cbn. apply IH; [by apply wf_step | by apply Hstep].
Qed.

(** Two tracked calls never share a window. *)
Lemma wf_window_inj w p q c c0 :
  wf w -> calls w !! p = Some c -> calls w !! q = Some c0 ->
  window c = window c0 -> p = q.
Proof.
  intros Hwf Hp Hq He.
  destruct (wf_window w Hwf p c Hp) as (cw & H1 & H2 & _).
  destruct (wf_window w Hwf q c0 Hq) as (cw0 & H3 & H4 & _).
  rewrite He in H1. congruence.
Qed.

(** *** The windows on screen *)

Lemma ui_inv_emit x w : ui_inv w -> ui_inv (emit x w).
Proof. intros [H1 H2 H3]. by constructor. Qed.

Lemma ui_inv_update_timer p w : wf w -> ui_inv w -> ui_inv (_update_timer p w).1.
Proof.
  intros Hwf [H1 H2 H3].
  destruct (update_timer_windows p w) as [Hw | (c & text & Hc & Hw)].
  - constructor; rewrite ?update_timer_calls, ?Hw; assumption.
  - assert (Hlook : forall wid cw', windows (_update_timer p w).1 !! wid = Some cw' ->
              exists cw, windows w !! wid = Some cw /\
                state_label cw' = state_label cw /\
                answer_sensitive cw' = answer_sensitive cw /\
                hangup_sensitive cw' = hangup_sensitive cw /\
                destroyed cw' = destroyed cw /\
                cw_call_path cw' = cw_call_path cw).
    { intros wid cw'. rewrite Hw.
      destruct (decide (window c = wid)) as [<-|Hne].
      - rewrite lookup_alter_eq. destruct (windows w !! window c) as [cw|]; [|done].
        cbn. intros [= <-]. exists cw. done.
      - rewrite lookup_alter_ne by done. intros Hcw. exists cw'. done. }
    constructor; rewrite ?update_timer_calls.
    + intros q c0 cw' Hq Hcw' Hs.
      destruct (Hlook _ _ Hcw') as (cw & Hcw & -> & -> & -> & _). eauto.
    + intros q c0 cw' Hq Hcw' Hs.
      destruct (Hlook _ _ Hcw') as (cw & Hcw & -> & -> & -> & _). eauto.
    + intros wid cw' Hcw' Hd.
      destruct (Hlook _ _ Hcw') as (cw & Hcw & _ & _ & _ & Hd' & ->).
      apply (H3 wid cw Hcw). congruence.
Qed.

Lemma ui_inv_mark_active p w : wf w -> ui_inv w -> ui_inv (_mark_active p w).
Proof.
  intros Hwf [H1 H2 H3]. destruct (calls w !! p) as [c|] eqn:Hp;
    [|rewrite mark_active_untracked by done; by constructor].
  pose proof (mark_active_calls p w c Hp) as Hc.
  pose proof (mark_active_windows p w c Hp) as Hw.
  set (text := timer_text _) in Hw.
  assert (Hlook : forall q c0, calls (_mark_active p w) !! q = Some c0 ->
            (q = p /\ c0 = activated c (clock w (clock_reads w)) (next_source w)) \/
            (q <> p /\ calls w !! q = Some c0)).
  { intros q c0. rewrite Hc. intros Hq. apply lookup_insert_Some in Hq.
    destruct Hq as [[<- <-]|[? ?]]; [left|right]; done. }
  assert (Hmine : forall cw', windows (_mark_active p w) !! window c = Some cw' ->
            exists cw, windows w !! window c = Some cw /\
              cw' = cw_set_timer_label text (cw_show_active cw)).
  { intros cw'. rewrite Hw, !lookup_alter_eq.
    destruct (windows w !! window c) as [cw|]; [|done].
    cbn. intros [= <-]. by exists cw. }
  assert (Hother : forall wid, wid <> window c ->
            windows (_mark_active p w) !! wid = windows w !! wid).
  { intros wid Hne. rewrite Hw, !lookup_alter_ne by done. done. }
  constructor.
  - intros q c0 cw' Hq Hcw' Hs. destruct (Hlook q c0 Hq) as [[-> ->]|[Hne Hq']].
    { cbn in Hs. discriminate Hs. }
    rewrite Hother in Hcw'; [eauto|].
    intros He. apply Hne. symmetry. by apply (wf_window_inj w p q c c0 Hwf).
  - intros q c0 cw' Hq Hcw' Hs. destruct (Hlook q c0 Hq) as [[-> ->]|[Hne Hq']].
    { cbn in Hcw'. destruct (Hmine cw' Hcw') as (cw & _ & ->). done. }
    rewrite Hother in Hcw'; [eauto|].
    intros He. apply Hne. symmetry. by apply (wf_window_inj w p q c c0 Hwf).
  - intros wid cw' Hcw' Hd.
    assert (exists cw, windows w !! wid = Some cw /\ destroyed cw = false /\
              cw_call_path cw = cw_call_path cw') as (cw & Hcw & Hd' & Hpath).
    { destruct (decide (wid = window c)) as [->|Hne].
      - destruct (Hmine cw' Hcw') as (cw & Hcw & ->). exists cw. done.
      - rewrite Hother in Hcw' by done. exists cw'. done. }
    destruct (H3 wid cw Hcw Hd') as (c0 & Hc0 & Hwid). rewrite Hpath in Hc0.
    rewrite Hc. destruct (decide (cw_call_path cw' = p)) as [Heq|Hne].
    + rewrite Heq in Hc0 |- *. rewrite Hp in Hc0. injection Hc0 as <-.
      rewrite lookup_insert_eq. eexists. split; [reflexivity|exact Hwid].
    + rewrite lookup_insert_ne by done. eauto.
Qed.

Lemma ui_inv_close_call p w : wf w -> ui_inv w -> ui_inv (_close_call p w).
Proof.
  intros Hwf [H1 H2 H3]. destruct (calls w !! p) as [c|] eqn:Hp;
    [|rewrite close_call_untracked by done; by constructor].
  destruct (wf_window w Hwf p c Hp) as (cw & Hcw & Hpath & Hd & _).
  rewrite (close_call_tracked p w c cw Hp Hcw Hd Hpath).
  assert (Hw : windows (remove_timer c (set_calls (delete p) w)) = windows w).
  { unfold remove_timer. destruct (timer_id c); reflexivity. }
  assert (Hother : forall q c0, delete p (calls w) !! q = Some c0 ->
            calls w !! q = Some c0 /\ window c0 <> window c).
  { intros q c0 Hq. apply lookup_delete_Some in Hq. destruct Hq as [Hne Hq].
    split; [done|]. intros He. apply Hne.
    by apply (wf_window_inj w p q c c0 Hwf). }
  constructor; cbn; rewrite ?remove_timer_calls, ?Hw; cbn.
  - intros q c0 cw' Hq Hcw' Hs. destruct (Hother q c0 Hq) as [Hq' Hne].
    rewrite lookup_insert_ne in Hcw' by done. eauto.
  - intros q c0 cw' Hq Hcw' Hs. destruct (Hother q c0 Hq) as [Hq' Hne].
    rewrite lookup_insert_ne in Hcw' by done. eauto.
  - intros wid cw' Hcw' Hd'.
    destruct (decide (window c = wid)) as [<-|Hne].
    { rewrite lookup_insert_eq in Hcw'. injection Hcw' as <-. discriminate Hd'. }
    rewrite lookup_insert_ne in Hcw' by done.
    destruct (H3 wid cw' Hcw' Hd') as (c0 & Hc0 & Hwid).
    exists c0. split; [|done]. rewrite lookup_delete_ne; [done|].
    intros He. rewrite <- He in Hc0. congruence.
Qed.

Lemma ui_inv_show_window p cid w :
  wf w -> ui_inv w -> ui_inv (_show_window p cid "incoming" w).
Proof.
  intros Hwf [H1 H2 H3]. destruct (calls w !! p) as [c|] eqn:Hp.
  { rewrite (show_window_tracked _ _ _ _ _ Hp). by constructor. }
  rewrite (show_window_incoming _ _ _ Hp).
  assert (Hfresh : forall q c0, calls w !! q = Some c0 -> window c0 <> next_window w).
  { intros q c0 Hq He. destruct (wf_window w Hwf q c0 Hq) as (cw & Hcw & _).
    assert (window c0 < next_window w) by (apply (wf_window_fresh w Hwf); eauto).
    lia. }
  constructor; cbn.
  - intros q c0 cw' Hq Hcw' Hs. apply lookup_insert_Some in Hq.
    destruct Hq as [[<- <-]|[Hne Hq]].
    + cbn in Hcw'. rewrite lookup_insert_eq in Hcw'. injection Hcw' as <-. done.
    + rewrite lookup_insert_ne in Hcw' by (symmetry; by apply (Hfresh q)). eauto.
  - intros q c0 cw' Hq Hcw' Hs. apply lookup_insert_Some in Hq.
    destruct Hq as [[<- <-]|[Hne Hq]].
    + cbn in Hs. discriminate Hs.
    + rewrite lookup_insert_ne in Hcw' by (symmetry; by apply (Hfresh q)). eauto.
  - intros wid cw' Hcw' Hd. apply lookup_insert_Some in Hcw'.
    destruct Hcw' as [[<- <-]|[Hne Hcw']].
    + cbn. rewrite lookup_insert_eq. eexists. split; reflexivity.
    + destruct (H3 wid cw' Hcw' Hd) as (c0 & Hc0 & Hwid).
      exists c0. split; [|done]. rewrite lookup_insert_ne; [done|].
      intros He. rewrite <- He in Hc0. congruence.
Qed.

Lemma ui_inv_main clock : ui_inv (main clock).
Proof. constructor; cbn; intros; done. Qed.

Lemma reachable_ui_inv w : reachable w -> ui_inv w.
Proof.
  intros (clock & es & ->).
  apply (run_invariant ui_inv); [|apply wf_main|apply ui_inv_main].
  apply step_invariant.
  - apply ui_inv_emit.
  - apply ui_inv_update_timer.
  - apply ui_inv_mark_active.
  - apply ui_inv_close_call.
  - apply ui_inv_show_window.
Qed.

(** *** Timers *)

(** X1.  No timer leaks and none is missing: in every reachable world each
    live timeout source belongs to a tracked active call that stores its
    id, each active call has exactly one live source, and an incoming call
    has none. *)
Theorem timers_match_active_calls w :
  reachable w ->
  (forall sid p, sources w !! sid = Some p ->
     exists c, calls w !! p = Some c /\ state c = "active" /\ timer_id c = Some sid) /\
  (forall p c, calls w !! p = Some c -> state c = "active" ->
     exists sid, timer_id c = Some sid /\ sources w !! sid = Some p /\
                 forall sid', sources w !! sid' = Some p -> sid' = sid) /\
  (forall p c, calls w !! p = Some c -> state c = "incoming" ->
     forall sid, sources w !! sid <> Some p).
Proof.
  intros Hr. pose proof (reachable_wf w Hr) as Hwf. repeat split_and.
  - intros sid p Hsid. apply (wf_sources w Hwf) in Hsid.
    destruct Hsid as (c & Hc & Ht). exists c. split; [done|]. split; [|done].
    apply (wf_timer w Hwf p c Hc). congruence.
  - intros p c Hc Ha.
    destruct (timer_id c) as [sid|] eqn:Ht.
    2:{ exfalso. by apply (wf_timer w Hwf p c Hc). }
    exists sid. split; [done|]. split.
    + apply (wf_sources w Hwf). eauto.
    + intros sid' Hsid'. apply (wf_sources w Hwf) in Hsid'.
      destruct Hsid' as (c' & Hc' & Ht'). congruence.
  - intros p c Hc Hi sid Hsid. apply (wf_sources w Hwf) in Hsid.
    destruct Hsid as (c' & Hc' & Ht').
    assert (c' = c) by congruence. subst c'.
    assert (state c = "active") by (apply (wf_timer w Hwf p c Hc); congruence).
    congruence.
Qed.

Lemma timers_match_active_calls_witness :
  exists c, calls ex_active !! "/c1" = Some c /\ state c = "active" /\
            timer_id c = Some 1%positive.
Proof.
  assert (Hs : sources ex_active !! 1%positive = Some "/c1") by (vm_compute; reflexivity).
  exact (proj1 (timers_match_active_calls ex_active reachable_ex_active)
           1%positive "/c1" Hs).
Defined.

(** X2.  A timer that is live never cancels itself: in every reachable
    world the callback of a live source returns True, so dispatching it
    keeps the source and the registry. *)
Theorem live_timer_keeps_running w sid p :
  reachable w -> sources w !! sid = Some p ->
  (_update_timer p w).2 = true /\
  sources (glib_dispatch sid w) = sources w /\
  calls (glib_dispatch sid w) = calls w /\
  trace (glib_dispatch sid w) = trace w.
Proof.
  intros Hr Hsid. pose proof (reachable_wf w Hr) as Hwf.
  pose proof (live_source_continues sid p w Hwf Hsid) as Hc.
  split; [exact Hc|]. unfold glib_dispatch. rewrite Hsid.
  pose proof (update_timer_sources p w) as H1.
  pose proof (update_timer_calls p w) as H2.
  pose proof (update_timer_trace p w) as H3.
  destruct (_update_timer p w) as [w1 b]. cbn in *. subst b. done.
Qed.

Lemma live_timer_keeps_running_witness :
  sources (glib_dispatch 1 ex_active) = sources ex_active.
Proof.
  assert (Hs : sources ex_active !! 1%positive = Some "/c1") by (vm_compute; reflexivity).
  exact (proj1 (proj2 (live_timer_keeps_running ex_active 1%positive "/c1"
                         reachable_ex_active Hs))).
Defined.

(** *** Windows *)

(** X3.  The window of a tracked call shows the call's state: it exists,
    is not destroyed, is titled with the stored caller; while the call is
    incoming both buttons are sensitive, and once it is active the Answer
    button is insensitive and Hang up stays sensitive. *)
Theorem window_shows_call_state w p c :
  reachable w -> calls w !! p = Some c ->
  exists cw, windows w !! window c = Some cw /\ destroyed cw = false /\
    caller_label cw = "From: " +:+ caller_id c /\
    (state c = "incoming" ->
       state_label cw = "Incoming call" /\
       answer_sensitive cw = true /\ hangup_sensitive cw = true) /\
    (state c = "active" ->
       state_label cw = "Call in progress" /\
       answer_sensitive cw = false /\ hangup_sensitive cw = true).
Proof.
  intros Hr Hc. pose proof (reachable_wf w Hr) as Hwf.
  pose proof (reachable_ui_inv w Hr) as Hui.
  destruct (wf_window w Hwf p c Hc) as (cw & Hcw & _ & Hd & Hl).
  exists cw. repeat split_and; try done.
  - by apply (ui_incoming w Hui p c cw).
  - by apply (ui_active w Hui p c cw).
Qed.

Lemma window_shows_call_state_witness :
  exists cw, windows ex_active !! 0 = Some cw /\ answer_sensitive cw = false.
Proof.
  assert (Hc : calls ex_active !! "/c1" =
               Some (activated (incoming_entry "Alice" 0) (py_float_of_Z 0) 1%positive))
    by (vm_compute; reflexivity).
  destruct (window_shows_call_state ex_active "/c1" _ reachable_ex_active Hc)
    as (cw & Hcw & _ & _ & _ & Ha).
  exists cw. split; [exact Hcw|]. exact (proj1 (proj2 (Ha eq_refl))).
Defined.

(** X4.  No window is orphaned or shared: in every reachable world a
    window that has not been destroyed is the window of the tracked call
    whose path its closures captured, and two tracked calls never have the
    same window. *)
Theorem windows_belong_to_calls w :
  reachable w ->
  (forall wid cw, windows w !! wid = Some cw -> destroyed cw = false ->
     exists c, calls w !! cw_call_path cw = Some c /\ window c = wid) /\
  (forall p q c c0, calls w !! p = Some c -> calls w !! q = Some c0 ->
     window c = window c0 -> p = q).
Proof.
  intros Hr. pose proof (reachable_wf w Hr) as Hwf.
  pose proof (reachable_ui_inv w Hr) as Hui. split.
  - apply (ui_owned w Hui).
  - intros p q c c0. by apply wf_window_inj.
Qed.

Lemma windows_belong_to_calls_witness :
  exists c, calls ex_active !! "/c1" = Some c /\ window c = 0.
Proof.
  assert (Hcw : windows ex_active !! 0 =
                Some {| cw_call_path := "/c1"; state_label := "Call in progress";
                        caller_label := "From: Alice"; timer_label := "00:00";
                        answer_sensitive := false; hangup_sensitive := true;
                        destroyed := false |}) by (vm_compute; reflexivity).
  exact (proj1 (windows_belong_to_calls ex_active reachable_ex_active) 0 _ Hcw eq_refl).
Defined.

(** *** Buttons *)

(** X5.  A click reaches the call the window belongs to: Hang up on the
    window of a tracked call makes one Hangup call on that call's path;
    Answer does the same with Answer while the call is incoming, and does
    nothing at all once the call is active.  No click changes the
    registry. *)
Theorem clicks_reach_their_call w p c o :
  reachable w -> calls w !! p = Some c ->
  let failure (what : string) :=
    match o with
    | Succeeds => []
    | Fails exc => [EPrint ("[popup] " +:+ what +:+ " failed: " +:+ exc);
                    ETraceback exc]
    end in
  new_effects w (step (HangupClicked (window c) o) w) =
    ([EPrint ("[popup] Hanging up " +:+ p); EDBusCall p "Hangup"] ++
     failure "Hangup")%list /\
  calls (step (HangupClicked (window c) o) w) = calls w /\
  (state c = "incoming" ->
     new_effects w (step (AnswerClicked (window c) o) w) =
       ([EPrint ("[popup] Answering " +:+ p); EDBusCall p "Answer"] ++
        failure "Answer")%list) /\
  (state c = "active" -> step (AnswerClicked (window c) o) w = w) /\
  calls (step (AnswerClicked (window c) o) w) = calls w.
Proof.
  intros Hr Hc failure. pose proof (reachable_wf w Hr) as Hwf.
  pose proof (reachable_ui_inv w Hr) as Hui.
  destruct (wf_window w Hwf p c Hc) as (cw & Hcw & Hpath & Hd & _).
  destruct (wf_state w Hwf p c Hc) as [Hs|Hs].
  - destruct (ui_incoming w Hui p c cw Hc Hcw Hs) as (_ & Ha & Hh).
    cbn. unfold clicked. rewrite Hcw, Hd, Ha, Hh, Hpath. cbn.
    repeat split_and.
    + destruct o; cbn; apply new_effects_app; cbn; by rewrite <- ?app_assoc.
    + by destruct o.
    + intros _. destruct o; cbn; apply new_effects_app; cbn; by rewrite <- ?app_assoc.
    + intros Hact. congruence.
    + by destruct o.
  - destruct (ui_active w Hui p c cw Hc Hcw Hs) as (_ & Ha & Hh).
    cbn. unfold clicked. rewrite Hcw, Hd, Ha, Hh, Hpath. cbn.
    repeat split_and.
    + destruct o; cbn; apply new_effects_app; cbn; by rewrite <- ?app_assoc.
    + by destruct o.
    + intros Hinc. congruence.
    + done.
    + done.
Qed.

Lemma clicks_reach_their_call_witness :
  new_effects ex_active (step (HangupClicked 0 Succeeds) ex_active) =
    [EPrint "[popup] Hanging up /c1"; EDBusCall "/c1" "Hangup"] /\
  step (AnswerClicked 0 Succeeds) ex_active = ex_active.
Proof.
  assert (Hc : calls ex_active !! "/c1" =
               Some (activated (incoming_entry "Alice" 0) (py_float_of_Z 0) 1%positive))
    by (vm_compute; reflexivity).
  pose proof (clicks_reach_their_call ex_active "/c1" _ Succeeds
                reachable_ex_active Hc) as (H1 & _ & _ & H2 & _).
  split; [exact H1 | exact (H2 eq_refl)].
Defined.

(** *** Closing *)

(** X6.  Closing is idempotent: whatever the world, after [_close_call]
    the path is untracked, a second [_close_call] for it finds nothing to
    pop and changes nothing, and closing never adds or alters an entry.
    This is what makes the "destroy" handler harmless when
    [window.destroy()] runs it during a close. *)
Theorem close_call_idempotent p w :
  _close_call p (_close_call p w) = _close_call p w /\
  calls (_close_call p w) !! p = None /\
  (forall q c, calls (_close_call p w) !! q = Some c -> calls w !! q = Some c).
Proof.
  split; [|split; [apply close_call_lookup_None|apply close_call_lookup_Some]].
  apply close_call_untracked, close_call_lookup_None.
Qed.

Lemma close_call_idempotent_witness :
  calls (_close_call "/c1" ex_active) !! "/c1" = None.
Proof. exact (proj1 (proj2 (close_call_idempotent "/c1" ex_active))). Defined.

(** *** Several calls at once *)

(** What one event does to the windows: it leaves a window alone unless
    it is the window of the call the event names, or the event is a
    timer. *)
Lemma step_windows_other e w wid :
  wf w -> ~ is_timeout e -> is_Some (windows w !! wid) ->
  (forall p c, event_path e = Some p -> calls w !! p = Some c -> window c <> wid) ->
  windows (step e w) !! wid = windows w !! wid.
Proof.
  intros Hwf Hnt Hsome Hne.
  assert (Hlt : wid < next_window w) by by apply (wf_window_fresh w Hwf).
  destruct e as [path ifs|path ifs|i ch inv path|sid|x o|x o|x]; cbn in *.
  - unfold on_interfaces_added.
    destruct (ifs !! Call1) as [props|]; [|done].
    destruct (bool_decide _); [done|].
    destruct (String.eqb _ "incoming"); [|done].
    match goal with |- context [_show_window _ ?cid _ ?w1] =>
      set (w' := w1); set (c := cid) end.
    destruct (calls w !! path) as [c0|] eqn:Hp.
    + by rewrite (show_window_tracked path c "incoming" w' c0 Hp).
    + rewrite (show_window_incoming path c w' Hp). cbn.
      apply lookup_insert_ne. lia.
  - unfold on_interfaces_removed. destruct (bool_decide _); [|done].
    set (w' := log _ w).
    destruct (calls w !! path) as [c0|] eqn:Hp; [|by rewrite close_call_untracked].
    destruct (wf_window w Hwf path c0 Hp) as (cw & Hcw & Hpath & Hd & _).
    rewrite (close_call_tracked path w' c0 cw Hp Hcw Hd Hpath). cbn.
    rewrite lookup_insert_ne by (by apply (Hne path)).
    unfold remove_timer. by destruct (timer_id c0).
  - unfold on_properties_changed.
    destruct (negb (String.eqb i Call1)); [done|].
    destruct (negb (truthy_str (ch !! "State"))); [done|].
    destruct path as [p|]; [|done]. cbn.
    destruct (negb (negb (String.eqb p ""))); [done|].
    set (w' := log _ w).
    destruct (String.eqb _ "active").
    { destruct (calls w !! p) as [c0|] eqn:Hp; [|by rewrite mark_active_untracked].
      rewrite (mark_active_windows p w' c0 Hp).
      rewrite !lookup_alter_ne by (by apply (Hne p)). done. }
    destruct (String.eqb _ "disconnected"); [|done].
    destruct (calls w !! p) as [c0|] eqn:Hp; [|by rewrite close_call_untracked].
    destruct (wf_window w Hwf p c0 Hp) as (cw & Hcw & Hpath & Hd & _).
    rewrite (close_call_tracked p w' c0 cw Hp Hcw Hd Hpath). cbn.
    rewrite lookup_insert_ne by (by apply (Hne p)).
    unfold remove_timer. by destruct (timer_id c0).
  - by destruct Hnt.
  - unfold clicked. destruct (windows w !! x) as [cw|]; [|done].
    destruct (_ || _); [done|]. by destruct o.
  - unfold clicked. destruct (windows w !! x) as [cw|]; [|done].
    destruct (_ || _); [done|]. by destruct o.
  - done.
Qed.

(** X7.  Calls do not interfere: an event that does not name the call [q]
    leaves [q]'s entry and its timers as they are, and, unless the event
    is a timer firing, [q]'s window too. *)
Theorem other_calls_untouched w e q c :
  reachable w -> calls w !! q = Some c -> event_path e <> Some q ->
  calls (step e w) !! q = Some c /\
  (forall sid, sources (step e w) !! sid = Some q <-> sources w !! sid = Some q) /\
  (~ is_timeout e -> windows (step e w) !! window c = windows w !! window c).
Proof.
  intros Hr Hc Hne. pose proof (reachable_wf w Hr) as Hwf.
  pose proof (wf_step e w Hwf) as Hwf'.
  assert (Hq : calls (step e w) !! q = Some c).
  { destruct (step_calls_cases e w q Hwf)
      as [He|[(Hn & _)|[(c0 & _ & (ch & inv & -> & _) & _)|(_ & _ & Hends)]]].
    - by rewrite He.
    - congruence.
    - by destruct Hne.
    - destruct Hends as [(ifs & -> & _)|(ch & inv & -> & _)]; by destruct Hne. }
  repeat split_and; [exact Hq| |].
  - intros sid. rewrite (wf_sources w Hwf sid q), (wf_sources _ Hwf' sid q).
    rewrite Hq, Hc. done.
  - intros Hnt. destruct (wf_window w Hwf q c Hc) as (cw & Hcw & _).
    apply step_windows_other; [done|done|eauto|].
    intros p c0 Hp Hc0 Hw. apply Hne. rewrite Hp. f_equal.
    by apply (wf_window_inj w p q c0 c Hwf).
Qed.

Lemma other_calls_untouched_witness :
  calls (step (InterfacesRemoved "/c2" [Call1]) ex_active) !! "/c1" =
    Some (activated (incoming_entry "Alice" 0) (py_float_of_Z 0) 1%positive).
Proof.
  assert (Hc : calls ex_active !! "/c1" =
               Some (activated (incoming_entry "Alice" 0) (py_float_of_Z 0) 1%positive))
    by (vm_compute; reflexivity).
  assert (Hne : event_path (InterfacesRemoved "/c2" [Call1]) <> Some "/c1")
    by discriminate.
  exact (proj1 (other_calls_untouched ex_active (InterfacesRemoved "/c2" [Call1])
                  "/c1" _ reachable_ex_active Hc Hne)).
Defined.

(** *** [_show_window] with any initial state *)

(** X8.  [_show_window] keeps the registry invariant whatever initial
    state it is given.  For an untracked path, the initial state "active"
    activates the new call at once (start time read, timer added), and any
    other initial state is stored as given, without start time or timer. *)
Theorem show_window_any_initial_state p cid st w :
  registry_inv w ->
  registry_inv (_show_window p cid st w) /\
  (calls w !! p = None -> st = "active" ->
     calls (_show_window p cid st w) =
       <[p := {| caller_id := str_or cid "Unknown"; state := "active";
                 window := next_window w;
                 start_time := Some (clock w (clock_reads w));
                 timer_id := Some (next_source w) |}]> (calls w) /\
     sources (_show_window p cid st w) = <[next_source w := p]> (sources w)) /\
  (calls w !! p = None -> st <> "active" ->
     calls (_show_window p cid st w) =
       <[p := {| caller_id := str_or cid "Unknown"; state := st;
                 window := next_window w;
                 start_time := None; timer_id := None |}]> (calls w) /\
     sources (_show_window p cid st w) = sources w).
Proof.
  intros Hinv.
  assert (Hact : calls w !! p = None -> st = "active" ->
     calls (_show_window p cid st w) =
       <[p := {| caller_id := str_or cid "Unknown"; state := "active";
                 window := next_window w;
                 start_time := Some (clock w (clock_reads w));
                 timer_id := Some (next_source w) |}]> (calls w) /\
     sources (_show_window p cid st w) = <[next_source w := p]> (sources w)).
  { intros Hp ->. unfold _show_window. rewrite Hp. cbn.
    match goal with |- context [_mark_active p ?w1] => set (w3 := w1) end.
    assert (H3 : calls w3 !! p =
                 Some {| caller_id := str_or cid "Unknown"; state := "active";
                         window := next_window w; start_time := None;
                         timer_id := None |}) by apply lookup_insert_eq.
    rewrite (mark_active_calls p w3 _ H3), (mark_active_sources p w3 _ H3). cbn.
    split; [|done]. by rewrite insert_insert_eq. }
  assert (Hoth : calls w !! p = None -> st <> "active" ->
     calls (_show_window p cid st w) =
       <[p := {| caller_id := str_or cid "Unknown"; state := st;
                 window := next_window w;
                 start_time := None; timer_id := None |}]> (calls w) /\
     sources (_show_window p cid st w) = sources w).
  { intros Hp Hst. unfold _show_window. rewrite Hp.
    apply string_eqb_false in Hst. rewrite Hst. done. }
  split; [|split; assumption].
  destruct (calls w !! p) as [c|] eqn:Hp.
  { rewrite (show_window_tracked p cid st w c Hp). revert Hinv.
    by apply registry_inv_frame. }
  split; [apply registry_nodup|]. intros q c0.
  destruct (decide (st = "active")) as [Hst|Hst].
  - rewrite (proj1 (Hact eq_refl Hst)). intros Hq.
    apply lookup_insert_Some in Hq. destruct Hq as [[<- <-]|[_ Hq]]; [done|].
    by apply (proj2 Hinv q).
  - rewrite (proj1 (Hoth eq_refl Hst)). intros Hq.
    apply lookup_insert_Some in Hq. destruct Hq as [[<- <-]|[_ Hq]].
    + cbn. split; [done|]. intros. done.
    + by apply (proj2 Hinv q).
Qed.

Lemma show_window_any_initial_state_witness :
  registry_inv (_show_window "/c2" "Bob" "active" ex_active).
Proof.
  assert (H : registry_inv ex_active).
  { split; [apply NoDup_fst_map_to_list|].
    intros p c. rewrite ex_active_calls. intros Hp.
    apply lookup_singleton_Some in Hp. destruct Hp as [_ <-].
    cbn. split; intros _; [reflexivity | discriminate]. }
  exact (proj1 (show_window_any_initial_state "/c2" "Bob" "active" ex_active H)).
Defined.

(** *** Notifications the handlers ignore *)

(** X9.  An "appeared" notification without the Call1 interface, or whose
    Call1 property dict is empty, changes nothing and logs nothing; a
    state change to a value other than "active" and "disconnected" only
    writes its log line, so a tracked call keeps its state, its timer and
    its window. *)
Theorem ignored_notifications w :
  (forall path ifs, ifs !! Call1 = None \/ ifs !! Call1 = Some ∅ ->
     on_interfaces_added path ifs w = w) /\
  (forall ch inv p s, ch !! "State" = Some s -> p <> "" ->
     s <> "" -> s <> "active" -> s <> "disconnected" ->
     on_properties_changed Call1 ch inv (Some p) w =
       log ("State changed: " +:+ p +:+ " -> " +:+ s) w).
Proof.
  split.
  - intros path ifs [H|H]; unfold on_interfaces_added; rewrite H; [done|].
    by rewrite bool_decide_eq_true_2.
  - intros ch inv p s Hs Hp H0 Ha Hd.
    rewrite (on_properties_changed_unfold ch inv p s w Hs H0 Hp). cbn.
    apply string_eqb_false in Ha, Hd. by rewrite Ha, Hd.
Qed.

Lemma ignored_notifications_witness :
  on_properties_changed Call1 {[ "State" := "held" ]} [] (Some "/c1") ex_active =
    log "State changed: /c1 -> held" ex_active.
Proof.
  assert (Hs : ({[ "State" := "held" ]} : gmap string string) !! "State" = Some "held")
    by (vm_compute; reflexivity).
  exact (proj2 (ignored_notifications ex_active) {[ "State" := "held" ]} [] "/c1" "held"
           Hs ltac:(discriminate) ltac:(discriminate) ltac:(discriminate)
           ltac:(discriminate)).
Defined.

(** *** Start-up *)

(** X10.  Start-up reaches the event loop exactly when the three
    subscriptions succeed, and then in the world [main clock] the
    properties above start from.  If one of them raises, the process
    leaves with exit status 1 after logging the first failure and its
    traceback; "Ready for calls" is never printed and nothing is
    tracked. *)
Theorem startup_outcome clock a r c :
  (a = Succeeds /\ r = Succeeds /\ c = Succeeds ->
     main_startup clock a r c = Running (main clock)) /\
  (forall w, main_startup clock a r c = Running w ->
     a = Succeeds /\ r = Succeeds /\ c = Succeeds) /\
  (forall exc, first_failure [a; r; c] = Some exc ->
     exists w, main_startup clock a r c = Exited 1 w /\
       calls w = ∅ /\
       trace w = [EPrint "[popup] Subscribing to PipeWire telephony signals";
                  EPrint ("[popup] Failed to subscribe: " +:+ exc);
                  ETraceback exc]) /\
  (first_failure [a; r; c] = None <-> a = Succeeds /\ r = Succeeds /\ c = Succeeds).
Proof.
  repeat split_and.
  - intros (-> & -> & ->). reflexivity.
  - intros w. destruct a, r, c; cbn; intros H; try discriminate H; done.
  - intros exc H. unfold main_startup, PopupApp__init__, _subscribe. rewrite H.
    eexists. split; [reflexivity|]. done.
  - destruct a, r, c; cbn; split; intros H; try discriminate H; try done;
      destruct H as (? & ? & ?); discriminate.
Qed.

Lemma startup_outcome_witness :
  exists w, main_startup ex_clock Succeeds (Fails "no bus") Succeeds = Exited 1 w /\
    calls w = ∅.
Proof.
  destruct (proj1 (proj2 (proj2
    (startup_outcome ex_clock Succeeds (Fails "no bus") Succeeds))) "no bus" eq_refl)
    as (w & Hw & Hc & _).
  exists w. split; [exact Hw | exact Hc].
Defined.

(** *** The clock *)

Lemma update_timer_clock p w :
  clock (_update_timer p w).1 = clock w /\
  clock_reads w <= clock_reads (_update_timer p w).1.
Proof.
  unfold _update_timer.
  destruct (calls w !! p) as [c|]; [|done].
  destruct (negb _); [done|].
  destruct (start_time c); cbn; [split; [done|lia]|done].
Qed.

Lemma mark_active_clock p w c :
  calls w !! p = Some c ->
  clock (_mark_active p w) = clock w /\
  clock_reads (_mark_active p w) = S (S (clock_reads w)).
Proof.
  intros H. unfold _mark_active. rewrite H. cbn.
  unfold _update_timer. cbn. rewrite lookup_insert_eq. cbn.
  unfold remove_timer. destruct (timer_id c); done.
Qed.

Lemma close_call_clock p w :
  wf w ->
  clock (_close_call p w) = clock w /\
  clock_reads (_close_call p w) = clock_reads w.
Proof.
  intros Hwf. destruct (calls w !! p) as [c|] eqn:Hp;
    [|by rewrite close_call_untracked].
  destruct (wf_window w Hwf p c Hp) as (cw & Hcw & Hpath & Hd & _).
  rewrite (close_call_tracked p w c cw Hp Hcw Hd Hpath). cbn.
  unfold remove_timer. by destruct (timer_id c).
Qed.

(** The clock is never replaced and every start time is an earlier
    reading. *)
Lemma reachable_starts_past clk es :
  clock (run es (main clk)) = clk /\ starts_past (run es (main clk)).
Proof.
  apply (run_invariant (fun w => clock w = clk /\ starts_past w));
    [|apply wf_main|split; [done|intros p c st Hc; done]].
  apply step_invariant.
  - intros x w [Hclk Hsp]. done.
  - intros p w Hwf [Hclk Hsp]. destruct (update_timer_clock p w) as [Hc Hr].
    split; [congruence|]. intros q c st. rewrite update_timer_calls, Hc.
    intros Hq Hst. destruct (Hsp q c st Hq Hst) as (k & Hk & ->).
    exists k. split; [lia|done].
  - intros p w Hwf [Hclk Hsp]. destruct (calls w !! p) as [c|] eqn:Hp;
      [|by rewrite mark_active_untracked].
    destruct (mark_active_clock p w c Hp) as [Hc Hr].
    split; [congruence|]. intros q c0 st.
    rewrite (mark_active_calls p w c Hp), Hc, Hr. intros Hq Hst.
    apply lookup_insert_Some in Hq. destruct Hq as [[<- <-]|[_ Hq]].
    + cbn in Hst. injection Hst as <-. exists (clock_reads w). split; [lia|done].
    + destruct (Hsp q c0 st Hq Hst) as (k & Hk & ->). exists k. split; [lia|done].
  - intros p w Hwf [Hclk Hsp]. destruct (close_call_clock p w Hwf) as [Hc Hr].
    split; [congruence|]. intros q c st Hq Hst. rewrite Hc, Hr.
    apply close_call_lookup_Some in Hq. eauto.
  - intros p cid w Hwf [Hclk Hsp]. destruct (calls w !! p) as [c|] eqn:Hp.
    { by rewrite (show_window_tracked _ _ _ _ _ Hp). }
    rewrite (show_window_incoming _ _ _ Hp). split; [done|].
    intros q c st. cbn. intros Hq Hst.
    apply lookup_insert_Some in Hq. destruct Hq as [[<- <-]|[_ Hq]]; [done|eauto].
Qed.

Lemma monotonic_le clk :
  monotonic clk -> forall i j, i <= j -> (SF2Q (clk i) <= SF2Q (clk j))%Q.
Proof.
  intros Hm i j Hij. induction Hij as [|j Hij IH]; [apply Qle_refl|].
  eapply Qle_trans; [exact IH|apply Hm].
Qed.

(** X11.  With a clock that returns numbers and never goes backwards, the
    binary64 difference [now - start_time] a tick computes for a tracked
    call is neither NaN nor negative: rounding keeps the order of the two
    readings.  When it is finite, [int] of it is the whole seconds of its
    value, so the floor at zero in the label is never used, and the tick of
    an active call writes mm:ss of that number on the call's window. *)
Theorem elapsed_never_negative clk es p c st :
  monotonic clk ->
  let w := run es (main clk) in
  calls w !! p = Some c -> start_time c = Some st ->
  let d := py_float_sub (clock w (clock_reads w)) st in
  float_nonneg d /\
  (float_is_finite d = true ->
   let elapsed := Qfloor (SF2Q d) in
   (0 <= elapsed)%Z /\
   (state c = "active" ->
    exists cw, windows (_update_timer p w).1 !! window c = Some cw /\
               timer_label cw =
                 py_format_02d (elapsed / 60) +:+ ":" +:+
                 py_format_02d (elapsed mod 60))).
Proof.
  intros Hm w. destruct (reachable_starts_past clk es) as [Hclk Hsp].
  assert (Hr : reachable w) by (exists clk, es; reflexivity).
  fold w in Hclk, Hsp. clearbody w. intros Hc Hst d.
  destruct (Hsp p c st Hc Hst) as (k & Hk & Hst').
  assert (Hd : float_nonneg d).
  { unfold d. rewrite Hst', Hclk. apply py_float_sub_nonneg.
    - apply Hm.
    - apply Hm.
    - apply monotonic_le; [done|lia]. }
  split; [exact Hd|]. intros Hfin elapsed.
  assert (He : py_int d = elapsed).
  { destruct d as [s|s| |s m e]; try discriminate.
    - reflexivity.
    - cbn in Hd. subst s. apply SF2Q_pos_floor. }
  assert (H0 : (0 <= elapsed)%Z).
  { rewrite <- He. apply py_int_nonneg, Hd. }
  split; [exact H0|]. intros Ha.
  rewrite (update_timer_continues p w c st Hc Ha Hst). cbn. fold d.
  destruct (wf_window w (reachable_wf w Hr) p c Hc) as (cw & Hcw & _).
  exists (cw_set_timer_label (timer_text (py_int d)) cw).
  rewrite lookup_alter_eq, Hcw. split; [done|].
  cbn. unfold timer_text. cbv zeta. rewrite He, Z.max_l by lia. reflexivity.
Qed.

Lemma ex_clock_monotonic : monotonic ex_clock.
Proof.
  intros [|[|n]]; (split; [reflexivity|]); unfold Qle; vm_compute; discriminate.
Qed.

Lemma elapsed_never_negative_witness :
  float_nonneg (py_float_sub (clock ex_active (clock_reads ex_active)) (py_float_of_Z 0)) /\
  exists cw, windows (_update_timer "/c1" ex_active).1 !! 0 = Some cw /\
             timer_label cw = "01:05".
Proof.
  assert (Hc : calls (run [ex_appeared; ex_activated] (main ex_clock)) !! "/c1" =
               Some (activated (incoming_entry "Alice" 0) (py_float_of_Z 0) 1%positive))
    by (vm_compute; reflexivity).
  assert (Hfin : float_is_finite
                   (py_float_sub
                      (clock (run [ex_appeared; ex_activated] (main ex_clock))
                         (clock_reads (run [ex_appeared; ex_activated] (main ex_clock))))
                      (py_float_of_Z 0)) = true)
    by (vm_compute; reflexivity).
  pose proof (elapsed_never_negative ex_clock [ex_appeared; ex_activated] "/c1"
                (activated (incoming_entry "Alice" 0) (py_float_of_Z 0) 1%positive)
                (py_float_of_Z 0) ex_clock_monotonic Hc eq_refl) as [Hd H].
  split; [exact Hd|].
  destruct (H Hfin) as [_ Hl]. destruct (Hl eq_refl) as (cw & Hcw & Ht).
  exists cw. split; [exact Hcw|]. rewrite Ht. vm_compute. reflexivity.
Defined.

(** *** Reading the timer label back *)

Lemma string_length_app (a b : string) :
  String.length (a +:+ b) = String.length a + String.length b.
Proof. induction a as [|x a IH]; simpl; [done|by f_equal]. Qed.

Lemma has_colon_string_of_uint d : has_colon (NilZero.string_of_uint d) = false.
Proof.
  destruct d; try reflexivity;
    cbn; match goal with |- has_colon (NilEmpty.string_of_uint ?u) = _ =>
           induction u; cbn; auto end.
Qed.

(** For a number that is not negative, [py_str] is the numeral of its
    decimal digits. *)
Lemma py_str_nonneg z :
  (0 <= z)%Z ->
  exists d, d <> Decimal.Nil /\ Z.to_int z = Decimal.Pos d /\
            py_str z = NilZero.string_of_uint d.
Proof.
  intros Hz. destruct z as [|p|p]; [| |lia].
  - exists Decimal.zero. done.
  - exists (Pos.to_uint p). split; [apply Unsigned.to_uint_nonnil|done].
Qed.

Lemma has_colon_py_format_02d z : (0 <= z)%Z -> has_colon (py_format_02d z) = false.
Proof.
  intros Hz. destruct (py_str_nonneg z Hz) as (d & _ & _ & Hs).
  unfold py_format_02d. cbv zeta. rewrite Hs.
  destruct (Nat.ltb _ _); cbn; apply has_colon_string_of_uint.
Qed.

(** The text before the first colon and the text after it determine each
    other's boundaries. *)
Lemma split_at_colon a : forall a' b b',
  has_colon a = false -> has_colon a' = false ->
  a +:+ String ":" b = a' +:+ String ":" b' -> a = a' /\ b = b'.
Proof.
  induction a as [|x a IH]; intros [|x' a'] b b' Ha Ha'; cbn in *.
  - intros [= ->]. done.
  - intros [= <- _]. discriminate Ha'.
  - intros [= -> _]. discriminate Ha.
  - intros [= -> He]. apply orb_false_iff in Ha, Ha'.
    destruct (IH a' b b' (proj2 Ha) (proj2 Ha') He) as [-> ->]. done.
Qed.

Lemma int_of_string_leading_zero s d :
  NilEmpty.uint_of_string s = Some d ->
  NilZero.int_of_string (String "0" s) = Some (Decimal.Pos (Decimal.D0 d)).
Proof.
  intros H. unfold NilZero.int_of_string, NilZero.uint_of_string. simpl.
  rewrite H. reflexivity.
Qed.

(** Read as a decimal numeral, a formatted field gives the number back. *)
Lemma py_format_02d_decimal z :
  (0 <= z)%Z -> Z.of_int <$> NilZero.int_of_string (py_format_02d z) = Some z.
Proof.
  intros Hz. unfold py_format_02d. cbv zeta.
  destruct (Nat.ltb _ _); [|apply py_str_decimal].
  destruct (py_str_nonneg z Hz) as (d & Hd & Hi & Hs). rewrite Hs.
  assert (He : NilZero.string_of_uint d = NilEmpty.string_of_uint d)
    by (by destruct d).
  rewrite He.
  change ("0" +:+ NilEmpty.string_of_uint d)
    with (String "0" (NilEmpty.string_of_uint d)).
  rewrite (int_of_string_leading_zero _ d (NilEmpty.usu d)).
  change (Some (Z.of_int (Decimal.Pos d)) = Some z).
  by rewrite <- Hi, DecimalZ.of_to.
Qed.

Lemma py_format_02d_inj z z' :
  (0 <= z)%Z -> (0 <= z')%Z -> py_format_02d z = py_format_02d z' -> z = z'.
Proof.
  intros Hz Hz' He.
  pose proof (py_format_02d_decimal z Hz) as H.
  rewrite He, (py_format_02d_decimal z' Hz') in H. congruence.
Qed.

Lemma py_format_02d_below_100 :
  forallb (fun k => Nat.eqb (String.length (py_format_02d (Z.of_nat k))) 2)
          (seq 0 100) = true.
Proof. vm_compute. reflexivity. Qed.

Lemma py_format_02d_length z : 2 <= String.length (py_format_02d z).
Proof.
  rewrite py_format_02d_zero_pad. unfold zero_pad.
  pose proof (py_str_nonempty z) as Hne.
  destruct (py_str z) as [|a [|b s]]; [done| |];
    cbv [zeros String.append String.length Nat.sub]; lia.
Qed.

(** X12.  The label determines the elapsed time: two numbers of seconds
    are shown by the same text only if they are equal once floored at
    zero, and each field, read as a decimal numeral, gives back the
    minutes and the seconds.  The text has five characters up to 99:59
    and is never shorter: longer calls widen the minutes field. *)
Theorem timer_text_faithful s s' :
  (timer_text s = timer_text s' -> Z.max s 0 = Z.max s' 0) /\
  Z.of_int <$> NilZero.int_of_string (py_format_02d (Z.max s 0 / 60)) =
    Some (Z.max s 0 / 60)%Z /\
  Z.of_int <$> NilZero.int_of_string (py_format_02d (Z.max s 0 mod 60)) =
    Some (Z.max s 0 mod 60)%Z /\
  5 <= String.length (timer_text s) /\
  ((s < 6000)%Z -> String.length (timer_text s) = 5).
Proof.
  assert (Hq : forall x, (0 <= Z.max x 0 / 60)%Z) by (intros; apply Z.div_pos; lia).
  assert (Hr : forall x, (0 <= Z.max x 0 mod 60 < 60)%Z)
    by (intros; apply Z.mod_pos_bound; lia).
  assert (Hlen : String.length (timer_text s) =
                 String.length (py_format_02d (Z.max s 0 / 60)) + 3).
  { unfold timer_text. cbv zeta. rewrite string_length_app.
    change (":" +:+ ?x) with (String ":" x). cbn [String.length].
    rewrite seconds_field_length by lia. lia. }
  repeat split_and.
  - unfold timer_text. cbv zeta. intros He.
    apply split_at_colon in He; try (apply has_colon_py_format_02d; apply Hq).
    destruct He as [H1 H2].
    apply py_format_02d_inj in H1; [|apply Hq..].
    apply py_format_02d_inj in H2; [|apply Hr..].
    rewrite (Z.div_mod (Z.max s 0) 60), (Z.div_mod (Z.max s' 0) 60) by lia.
    by rewrite H1, H2.
  - apply py_format_02d_decimal, Hq.
  - apply py_format_02d_decimal, Hr.
  - rewrite Hlen. pose proof (py_format_02d_length (Z.max s 0 / 60)). lia.
  - intros Hs. rewrite Hlen.
    pose proof py_format_02d_below_100 as H. rewrite forallb_forall in H.
    specialize (H (Z.to_nat (Z.max s 0 / 60))).
    rewrite Z2Nat.id in H by apply Hq.
    assert (Hin : In (Z.to_nat (Z.max s 0 / 60)) (seq 0 100)).
    { apply in_seq. assert (Z.max s 0 / 60 < 100)%Z by (apply Z.div_lt_upper_bound; lia).
      pose proof (Hq s). lia. }
    apply H, Nat.eqb_eq in Hin. lia.
Qed.

Lemma timer_text_faithful_witness : String.length (timer_text 65) = 5.
Proof.
  exact (proj2 (proj2 (proj2 (proj2 (timer_text_faithful 65 65)))) eq_refl).
Defined.

(** *** What the collaborators are asked to do *)

Lemma step_effects e w :
  wf w ->
  exists l, trace (step e w) = (trace w ++ l)%list /\ Forall (safe_effect w e) l.
Proof.
  intros Hwf.
  destruct e as [path ifs|path ifs|i ch inv path|sid|wid o|wid o|wid]; cbn -[safe_effect].
  - unfold on_interfaces_added.
    destruct (ifs !! Call1) as [props|]; [|exists []; by rewrite app_nil_r].
    destruct (bool_decide _); [exists []; by rewrite app_nil_r|].
    destruct (String.eqb _ "incoming"); [|eexists [_]; by repeat constructor].
    match goal with |- context [_show_window _ ?cid _ ?w1] =>
      set (w' := w1); set (c := cid) end.
    destruct (calls w !! path) as [c0|] eqn:Hp.
    + rewrite (show_window_tracked path c "incoming" w' c0 Hp). cbn.
      eexists [_; _]. split; [by rewrite <- app_assoc|]. by repeat constructor.
    + rewrite (show_window_incoming path c w' Hp). cbn.
      eexists [_; _; _; _]. split; [by rewrite <- app_assoc|]. by repeat constructor.
  - unfold on_interfaces_removed.
    destruct (bool_decide _); [|exists []; by rewrite app_nil_r].
    destruct (calls w !! path) as [c|] eqn:Hp.
    2:{ rewrite close_call_untracked by done. eexists [_]. by repeat constructor. }
    destruct (close_call_after_log ("Call removed: " +:+ path) path w c Hwf Hp)
      as (cw & Hcw & Hd & _ & _ & _ & ->).
    eexists. split; [reflexivity|].
    constructor; [done|]. apply Forall_app. split.
    + destruct (timer_id c) as [sid|] eqn:Ht; [|constructor].
      constructor; [|constructor]. cbn.
      exists path. apply (wf_sources w Hwf). eauto.
    + constructor; [cbn; eauto|]. by repeat constructor.
  - unfold on_properties_changed.
    destruct (negb (String.eqb i Call1)); [exists []; by rewrite app_nil_r|].
    destruct (negb (truthy_str (ch !! "State"))); [exists []; by rewrite app_nil_r|].
    destruct path as [p|]; [|exists []; by rewrite app_nil_r]. cbn -[safe_effect].
    destruct (negb (negb (String.eqb p ""))); [exists []; by rewrite app_nil_r|].
    set (line := "State changed: " +:+ p +:+ " -> " +:+ default "" (ch !! "State")).
    destruct (String.eqb _ "active").
    { destruct (calls w !! p) as [c|] eqn:Hp.
      2:{ rewrite mark_active_untracked by done. eexists [_]. by repeat constructor. }
      rewrite (mark_active_trace p (log line w) c Hp). cbn -[safe_effect].
      rewrite <- app_assoc. eexists. split; [reflexivity|].
      constructor; [done|]. constructor; [done|]. apply Forall_app. split.
      - destruct (timer_id c) as [sid|] eqn:Ht; [|constructor].
        constructor; [|constructor]. cbn.
        exists p. apply (wf_sources w Hwf). eauto.
      - constructor; [|constructor]. cbn. split; [done|].
        destruct (sources w !! next_source w) eqn:E; [|done].
        assert (next_source w < next_source w)%positive
          by (apply (wf_source_fresh w Hwf); eauto).
        lia. }
    destruct (String.eqb _ "disconnected"); [|eexists [_]; by repeat constructor].
    destruct (calls w !! p) as [c|] eqn:Hp.
    2:{ rewrite close_call_untracked by done. eexists [_]. by repeat constructor. }
    destruct (close_call_after_log line p w c Hwf Hp)
      as (cw & Hcw & Hd & _ & _ & _ & ->).
    eexists. split; [reflexivity|].
    constructor; [done|]. apply Forall_app. split.
    + destruct (timer_id c) as [sid|] eqn:Ht; [|constructor].
      constructor; [|constructor]. cbn.
      exists p. apply (wf_sources w Hwf). eauto.
    + constructor; [cbn; eauto|]. by repeat constructor.
  - exists []. split; [|constructor]. rewrite app_nil_r.
    unfold glib_dispatch. destruct (sources w !! sid) as [p|]; [|done].
    pose proof (update_timer_trace p w) as H.
    destruct (_update_timer p w) as [w1 [|]]; exact H.
  - unfold clicked. destruct (windows w !! wid) as [cw|];
      [|exists []; by rewrite app_nil_r].
    destruct (_ || _); [exists []; by rewrite app_nil_r|].
    destruct o; cbn -[safe_effect].
    + eexists [_; _]. split; [by rewrite <- app_assoc|]. by repeat constructor.
    + eexists [_; _; _; _]. split; [by rewrite <- !app_assoc|]. by repeat constructor.
  - unfold clicked. destruct (windows w !! wid) as [cw|];
      [|exists []; by rewrite app_nil_r].
    destruct (_ || _); [exists []; by rewrite app_nil_r|].
    destruct o; cbn -[safe_effect].
    + eexists [_; _]. split; [by rewrite <- app_assoc|]. by repeat constructor.
    + eexists [_; _; _; _]. split; [by rewrite <- !app_assoc|]. by repeat constructor.
  - exists []. split; [by rewrite app_nil_r|constructor].
Qed.

(** X13.  The collaborators are only asked for what they can do: in every
    reachable world, an event removes only sources that are live, destroys
    only windows that exist and are not destroyed yet, adds only the next
    fresh source, and calls the backend only when the event is a click on
    a button. *)
Theorem effects_are_safe w e x :
  reachable w -> x ∈ new_effects w (step e w) -> safe_effect w e x.
Proof.
  intros Hr Hin. pose proof (reachable_wf w Hr) as Hwf.
  destruct (step_effects e w Hwf) as (l & Hl & Hsafe).
  rewrite (new_effects_app w (step e w) l Hl) in Hin.
  rewrite Forall_forall in Hsafe. by apply Hsafe.
Qed.

Lemma effects_are_safe_witness :
  safe_effect ex_active (InterfacesRemoved "/c1" [Call1]) (ESourceRemove 1).
Proof.
  assert (He : new_effects ex_active (step (InterfacesRemoved "/c1" [Call1]) ex_active) =
               [EPrint "[popup] Call removed: /c1"; ESourceRemove 1; EDestroy 0;
                EPrint "[popup] Closed call UI for /c1"]) by (vm_compute; reflexivity).
  assert (Hin : ESourceRemove 1 ∈
                new_effects ex_active (step (InterfacesRemoved "/c1" [Call1]) ex_active)).
  { rewrite He. apply elem_of_cons. right. apply list_elem_of_here. }
  exact (effects_are_safe ex_active (InterfacesRemoved "/c1" [Call1]) (ESourceRemove 1)
           reachable_ex_active Hin).
Defined.

(** *** A whole call *)

(** X14.  A complete call leaves nothing behind: when an untracked call
    appears as incoming, becomes active and is removed, the registry and
    the set of live timers are what they were before; what remains is one
    more window, destroyed, and the two counters advanced by one. *)
Theorem whole_call_leaves_nothing w p ifs props ch :
  reachable w -> calls w !! p = None -> p <> "" ->
  ifs !! Call1 = Some props -> props !! "State" = Some "incoming" ->
  ch !! "State" = Some "active" ->
  let w3 := run [InterfacesAdded p ifs; PropertiesChanged Call1 ch [] (Some p);
                 InterfacesRemoved p [Call1]] w in
  calls w3 = calls w /\ sources w3 = sources w /\
  (exists cw, windows w3 = <[next_window w := cw]> (windows w) /\
              destroyed cw = true /\ cw_call_path cw = p) /\
  next_window w3 = S (next_window w) /\
  next_source w3 = Pos.succ (next_source w).
Proof.
  intros Hr Hp Hp0 Hi Hs Hch w3. pose proof (reachable_wf w Hr) as Hwf.
  assert (Hne : props <> ∅) by (intros ->; by rewrite lookup_empty in Hs).
  assert (Hw3 : w3 = on_interfaces_removed p [Call1]
                       (on_properties_changed Call1 ch [] (Some p)
                          (on_interfaces_added p ifs w))) by reflexivity.
  clearbody w3.
  assert (Hfresh : sources w !! next_source w = None).
  { destruct (sources w !! next_source w) eqn:E; [|done].
    assert (next_source w < next_source w)%positive
      by (apply (wf_source_fresh w Hwf); eauto).
    lia. }
  (* appeared *)
  set (cid := default "Unknown" (props !! "LineIdentification")).
  set (wl := log ("Incoming call: " +:+ cid +:+ " (state=incoming) path=" +:+ p) w).
  pose proof (wf_step (InterfacesAdded p ifs) w Hwf) as Hwf1. cbn [step] in Hwf1.
  remember (on_interfaces_added p ifs w) as w1 eqn:E1.
  assert (Hw1 : w1 = _show_window p cid "incoming" wl).
  { rewrite E1, (on_interfaces_added_unfold p ifs props w Hi Hne), Hs. reflexivity. }
  rewrite (show_window_incoming p cid wl Hp) in Hw1. clear E1.
  assert (Hc1 : calls w1 !! p = Some (incoming_entry cid (next_window w))).
  { rewrite Hw1. apply lookup_insert_eq. }
  (* active *)
  set (wl2 := log ("State changed: " +:+ p +:+ " -> active") w1).
  pose proof (wf_step (PropertiesChanged Call1 ch [] (Some p)) w1 Hwf1) as Hwf2.
  cbn [step] in Hwf2.
  remember (on_properties_changed Call1 ch [] (Some p) w1) as w2 eqn:E2.
  assert (Hw2 : w2 = _mark_active p wl2).
  { rewrite E2. by rewrite (on_properties_changed_unfold ch [] p "active" w1 Hch). }
  clear E2.
  pose proof (mark_active_calls p wl2 _ Hc1) as Hcalls2.
  pose proof (mark_active_sources p wl2 _ Hc1) as Hsrc2.
  pose proof (mark_active_windows p wl2 _ Hc1) as Hwin2.
  destruct (mark_active_next p wl2 _ Hc1) as [Hnw2 Hns2].
  rewrite <- Hw2 in Hcalls2, Hsrc2, Hwin2, Hnw2, Hns2.
  change (calls wl2) with (calls w1) in Hcalls2.
  change (windows wl2) with (windows w1) in Hwin2.
  change (next_window wl2) with (next_window w1) in Hnw2.
  change (next_source wl2) with (next_source w1) in Hns2, Hsrc2, Hcalls2.
  change (timer_id (incoming_entry cid (next_window w))) with (@None positive) in Hsrc2.
  change (sources wl2) with (sources w1) in Hsrc2.
  change (window (incoming_entry cid (next_window w))) with (next_window w) in Hwin2.
  match type of Hcalls2 with _ = <[p := ?c]> _ => set (c2 := c) in * end.
  assert (Hc2 : calls w2 !! p = Some c2) by (rewrite Hcalls2; apply lookup_insert_eq).
  (* removed *)
  set (wl3 := log ("Call removed: " +:+ p) w2).
  assert (Hw3' : w3 = _close_call p wl3).
  { rewrite Hw3. unfold on_interfaces_removed.
    rewrite bool_decide_eq_true_2; [done|apply list_elem_of_here]. }
  destruct (wf_window w2 Hwf2 p c2 Hc2) as (cw & Hcw & Hpath & Hd & _).
  rewrite (close_call_tracked p wl3 c2 cw Hc2 Hcw Hd Hpath) in Hw3'.
  change (window c2) with (next_window w) in Hw3', Hcw.
  change (remove_timer c2 ?x) with (source_remove (next_source w1) x) in Hw3'.
  assert (Hnw1 : next_window w1 = S (next_window w)) by (by rewrite Hw1).
  assert (Hns1 : next_source w1 = next_source w) by (by rewrite Hw1).
  assert (Hcalls1 : calls w1 = <[p := incoming_entry cid (next_window w)]> (calls w))
    by (by rewrite Hw1).
  assert (Hsrc1 : sources w1 = sources w) by (by rewrite Hw1).
  assert (Hwin1 : windows w1 =
            <[next_window w := cw_show_incoming (CallWindow_init p cid)]> (windows w))
    by (by rewrite Hw1).
  rewrite Hw3'. cbn. repeat split_and.
  - rewrite Hcalls2, Hcalls1, !delete_insert_eq. by apply delete_id.
  - rewrite Hsrc2, Hsrc1, Hns1, delete_insert_eq. by apply delete_id.
  - exists (cw_set_destroyed cw). split; [|split; [done|exact Hpath]].
    rewrite Hwin2, Hwin1, !alter_insert_eq, insert_insert_eq. done.
  - by rewrite Hnw2.
  - by rewrite Hns2, Hns1.
Qed.

Lemma whole_call_leaves_nothing_witness :
  calls (run [InterfacesAdded "/c2" ex_interfaces;
              PropertiesChanged Call1 {[ "State" := "active" ]} [] (Some "/c2");
              InterfacesRemoved "/c2" [Call1]] ex_active) = calls ex_active.
Proof.
  assert (Hp : calls ex_active !! "/c2" = None) by (vm_compute; reflexivity).
  assert (Hi : ex_interfaces !! Call1 = Some ex_props) by (vm_compute; reflexivity).
  assert (Hs : ex_props !! "State" = Some "incoming") by (vm_compute; reflexivity).
  assert (Hch : ({[ "State" := "active" ]} : gmap string string) !! "State" =
                Some "active") by (vm_compute; reflexivity).
  exact (proj1 (whole_call_leaves_nothing ex_active "/c2" ex_interfaces ex_props
                  {[ "State" := "active" ]} reachable_ex_active Hp
                  ltac:(discriminate) Hi Hs Hch)).
Defined.

(** *** Where windows and timers come from *)

Lemma close_call_next p w :
  wf w ->
  next_window (_close_call p w) = next_window w /\
  next_source (_close_call p w) = next_source w.
Proof.
  intros Hwf. destruct (calls w !! p) as [c|] eqn:Hp;
    [|by rewrite close_call_untracked].
  destruct (wf_window w Hwf p c Hp) as (cw & Hcw & Hpath & Hd & _).
  rewrite (close_call_tracked p w c cw Hp Hcw Hd Hpath). cbn.
  unfold remove_timer. by destruct (timer_id c).
Qed.

(** X15.  Windows and timers are created by the right notifications only:
    in every reachable world an event creates a window only if it is the
    appearance of an untracked call, which is then tracked as incoming,
    and it adds a timer only if it is the activation of a tracked call;
    every other event leaves both counters as they are. *)
Theorem creation_only_on_notification w e :
  reachable w ->
  (next_window (step e w) = next_window w \/
   exists p ifs, e = InterfacesAdded p ifs /\ calls w !! p = None /\
     next_window (step e w) = S (next_window w) /\
     tracked_state p (step e w) = Some "incoming") /\
  (next_source (step e w) = next_source w \/
   exists p c, activates e p /\ calls w !! p = Some c /\
     next_source (step e w) = Pos.succ (next_source w) /\
     tracked_state p (step e w) = Some "active").
Proof.
  intros Hr. pose proof (reachable_wf w Hr) as Hwf.
  destruct e as [path ifs|path ifs|i ch inv path|sid|wid o|wid o|wid]; cbn.
  - unfold on_interfaces_added.
    destruct (ifs !! Call1) as [props|]; [|by split; left].
    destruct (bool_decide _); [by split; left|].
    destruct (String.eqb _ "incoming") eqn:Ei; [|by split; left].
    match goal with |- context [_show_window _ ?cid _ ?w1] =>
      set (w' := w1); set (c := cid) end.
    destruct (calls w !! path) as [c0|] eqn:Hp.
    + rewrite (show_window_tracked path c "incoming" w' c0 Hp). by split; left.
    + rewrite (show_window_incoming path c w' Hp). cbn. split; [|by left].
      right. exists path, ifs. unfold tracked_state. cbn.
      by rewrite lookup_insert_eq.
  - unfold on_interfaces_removed. destruct (bool_decide _); [|by split; left].
    set (w' := log _ w). assert (Hwf' : wf w') by (revert Hwf; by apply wf_frame).
    destruct (close_call_next path w' Hwf') as [-> ->]. by split; left.
  - unfold on_properties_changed.
    destruct (String.eqb i Call1) eqn:Ei; cbn; [|by split; left].
    apply string_eqb_true in Ei. subst i.
    destruct (ch !! "State") as [s|] eqn:Es; cbn; [|by split; left].
    destruct (String.eqb s "") eqn:Es0; cbn; [by split; left|].
    destruct path as [p|]; cbn; [|by split; left].
    destruct (String.eqb p "") eqn:Ep0; cbn; [by split; left|].
    set (w' := log _ w). assert (Hwf' : wf w') by (revert Hwf; by apply wf_frame).
    destruct (String.eqb s "active") eqn:Ea.
    { apply string_eqb_true in Ea. subst s.
      destruct (calls w !! p) as [c|] eqn:Hp;
        [|rewrite mark_active_untracked by done; by split; left].
      destruct (mark_active_next p w' c Hp) as [-> ->]. split; [by left|].
      right. exists p, c. split; [by exists ch, inv|]. split; [done|].
      split; [done|]. unfold tracked_state.
      rewrite (mark_active_calls p w' c Hp), lookup_insert_eq. done. }
    destruct (String.eqb s "disconnected"); [|by split; left].
    destruct (close_call_next p w' Hwf') as [-> ->]. by split; left.
  - unfold glib_dispatch. destruct (sources w !! sid) as [p|]; [|by split; left].
    destruct (update_timer_next p w) as [H1 H2].
    destruct (_update_timer p w) as [w1 [|]]; cbn in *; rewrite H1, H2; by split; left.
  - unfold clicked. destruct (windows w !! wid) as [cw|]; [|by split; left].
    destruct (_ || _); [by split; left|]. destruct o; by split; left.
  - unfold clicked. destruct (windows w !! wid) as [cw|]; [|by split; left].
    destruct (_ || _); [by split; left|]. destruct o; by split; left.
  - by split; left.
Qed.

Lemma creation_only_on_notification_witness :
  next_window (step (Timeout 1) ex_active) = next_window ex_active \/
  exists p ifs, Timeout 1 = InterfacesAdded p ifs /\ calls ex_active !! p = None /\
    next_window (step (Timeout 1) ex_active) = S (next_window ex_active) /\
    tracked_state p (step (Timeout 1) ex_active) = Some "incoming".
Proof.
  exact (proj1 (creation_only_on_notification ex_active (Timeout 1) reachable_ex_active)).
Defined.

(** *** Ringing *)

(** The callback writes the label of an active call's window only. *)
Lemma update_timer_windows_active p w :
  windows (_update_timer p w).1 = windows w \/
  exists c text, calls w !! p = Some c /\ state c = "active" /\
    windows (_update_timer p w).1 =
      alter (cw_set_timer_label text) (window c) (windows w).
Proof.
  unfold _update_timer.
  destruct (calls w !! p) as [c|] eqn:Hp; [|by left].
  destruct (String.eqb (state c) "active") eqn:Ea; cbn; [|by left].
  apply string_eqb_true in Ea.
  destruct (start_time c); [|by left].
  right. exists c. eexists. split; [done|]. split; [done|]. reflexivity.
Qed.

Lemma ringing_inv_step e w : wf w -> ringing_inv w -> ringing_inv (step e w).
Proof.
  apply (step_invariant ringing_inv).
  - intros x w0 H. exact H.
  - intros p w0 Hwf H q c cw. rewrite update_timer_calls. intros Hq Hcw Hs.
    destruct (update_timer_windows_active p w0) as [Hw|(c0 & text & Hc0 & Ha & Hw)];
      rewrite Hw in Hcw; [by apply (H q c cw)|].
    rewrite lookup_alter_ne in Hcw; [by apply (H q c cw)|].
    intros He. assert (p = q) by (by apply (wf_window_inj w0 p q c0 c Hwf)).
    subst q. congruence.
  - intros p w0 Hwf H q c cw. destruct (calls w0 !! p) as [c0|] eqn:Hp;
      [|rewrite mark_active_untracked by done; by apply H].
    rewrite (mark_active_calls p w0 c0 Hp), (mark_active_windows p w0 c0 Hp).
    intros Hq Hcw Hs. apply lookup_insert_Some in Hq.
    destruct Hq as [[<- <-]|[Hne Hq]]; [discriminate Hs|].
    rewrite !lookup_alter_ne in Hcw; [by apply (H q c cw)|..];
      intros He; apply Hne; by apply (wf_window_inj w0 p q c0 c Hwf).
  - intros p w0 Hwf H q c cw. destruct (calls w0 !! p) as [c0|] eqn:Hp;
      [|rewrite close_call_untracked by done; by apply H].
    destruct (wf_window w0 Hwf p c0 Hp) as (cw0 & Hcw0 & Hpath & Hd & _).
    rewrite (close_call_tracked p w0 c0 cw0 Hp Hcw0 Hd Hpath). cbn.
    rewrite remove_timer_calls. cbn. intros Hq Hcw Hs.
    apply lookup_delete_Some in Hq. destruct Hq as [Hne Hq].
    rewrite lookup_insert_ne in Hcw
      by (intros He; apply Hne; by apply (wf_window_inj w0 p q c0 c Hwf)).
    apply (H q c cw Hq); [|done].
    revert Hcw. unfold remove_timer. by destruct (timer_id c0).
  - intros p cid w0 Hwf H q c cw. destruct (calls w0 !! p) as [c0|] eqn:Hp.
    { rewrite (show_window_tracked _ _ _ _ _ Hp). by apply H. }
    rewrite (show_window_incoming _ _ _ Hp). cbn. intros Hq Hcw Hs.
    apply lookup_insert_Some in Hq. destruct Hq as [[<- <-]|[Hne Hq]].
    + cbn in Hcw. rewrite lookup_insert_eq in Hcw. by injection Hcw as <-.
    + rewrite lookup_insert_ne in Hcw; [by apply (H q c cw)|].
      intros He. destruct (wf_window w0 Hwf q c Hq) as (cw' & Hcw' & _).
      assert (window c < next_window w0) by (apply (wf_window_fresh w0 Hwf); eauto).
      lia.
Qed.

(** X16.  For as long as a call is incoming its window shows "Ringingâ€¦"
    in place of the time: no tick and no event about another call writes
    the timer label of an incoming call. *)
Theorem incoming_call_shows_ringing w p c :
  reachable w -> calls w !! p = Some c -> state c = "incoming" ->
  exists cw, windows w !! window c = Some cw /\ timer_label cw = "Ringingâ€¦".
Proof.
  intros (clk & es & ->) Hc Hs.
  assert (Hwf : wf (run es (main clk))) by apply wf_run, wf_main.
  destruct (wf_window _ Hwf p c Hc) as (cw & Hcw & _).
  exists cw. split; [done|].
  refine (run_invariant ringing_inv ringing_inv_step es (main clk) (wf_main clk) _
            p c cw Hc Hcw Hs).
  intros q c0 cw0 Hq. done.
Qed.

Lemma incoming_call_shows_ringing_witness :
  exists cw, windows ex_incoming !! 0 = Some cw /\ timer_label cw = "Ringingâ€¦".
Proof.
  assert (Hc : calls ex_incoming !! "/c1" = Some (incoming_entry "Alice" 0))
    by (vm_compute; reflexivity).
  exact (incoming_call_shows_ringing ex_incoming "/c1" _ reachable_ex_incoming
           Hc eq_refl).
Defined.
